(** * vue-drupal-auth: the credential pipeline of [src/auth.js]

    A shallow embedding of the authentication helper: the JavaScript values
    that flow through it, [localStorage], [FormData], the module-level
    bindings, and every function of the file, written as programs over the
    two effects the file has (the synchronous key-value storage and the
    HTTP calls handed to axios). *)

From stdpp Require Import gmap strings list fin_maps.

Set Warnings "-register-all".

(** ** JavaScript values

    The values that reach this file: [undefined], [null], booleans, strings
    and plain objects (the JSON body of a token response).  Numbers do not
    occur in the file's own data and are not modelled. *)

Inductive jsval : Type :=
| JUndefined
| JNull
| JBool (b : bool)
| JStr (s : string)
| JObj (fields : list (string * jsval)).

(** ECMAScript [ToBoolean]. *)
Definition truthy (v : jsval) : bool :=
  match v with
  | JUndefined | JNull => false
  | JBool b => b
  | JStr s => if decide (s = "") then false else true
  | JObj _ => true
  end.

(** ECMAScript [ToString], the coercion [Storage.setItem] and
    [FormData.append] apply to their value argument. *)
Definition to_string (v : jsval) : string :=
  match v with
  | JUndefined => "undefined"
  | JNull => "null"
  | JBool true => "true"
  | JBool false => "false"
  | JStr s => s
  | JObj _ => "[object Object]"
  end.

(** A value read from [process.env] or [localStorage.getItem]: a string, or
    [undefined] / [null] when the entry is missing. *)
Definition of_env (o : option string) : jsval :=
  match o with Some s => JStr s | None => JUndefined end.

Definition of_item (o : option string) : jsval :=
  match o with Some s => JStr s | None => JNull end.

(** [a || b]. *)
Definition js_or (a b : jsval) : jsval := if truthy a then a else b.

(** What the program can raise or be rejected with. *)
Inductive Error : Type :=
| TypeError
| HttpError (status : nat) (body : jsval)
| NetworkError.

(** Property read [v.name]: [undefined] for a missing property, a
    [TypeError] on [undefined] and [null]. *)
Fixpoint assoc (name : string) (fields : list (string * jsval)) : jsval :=
  match fields with
  | [] => JUndefined
  | (k, v) :: rest => if decide (k = name) then v else assoc name rest
  end.

Definition get_prop (v : jsval) (name : string) : Error + jsval :=
  match v with
  | JUndefined | JNull => inl TypeError
  | JObj fields => inr (assoc name fields)
  | JBool _ | JStr _ => inr JUndefined
  end.

(** [v.length] as a condition: only its truthiness is used by the file. *)
Definition length_truthy (v : jsval) : Error + bool :=
  match v with
  | JUndefined | JNull => inl TypeError
  | JStr s => inr (negb (Nat.eqb (String.length s) 0))
  | JBool _ | JObj _ => inr false
  end.

(** ** Configuration: [process.env] *)

Record Env : Type := {
  VUE_APP_CLIENT_ID : option string;
  VUE_APP_CLIENT_SECRET : option string;
  VUE_APP_OAUTH_ENDPOINT : option string;
  VUE_APP_REDIRECT_URI : option string;
  VUE_APP_CSRF_TOKEN_ENDPOINT : option string
}.

(** ** [localStorage] *)

Abbreviation Storage := (gmap string string).

Definition getItem (st : Storage) (key : string) : option string := st !! key.
Definition setItem (st : Storage) (key : string) (v : jsval) : Storage :=
  <[key := to_string v]> st.
Definition removeItem (st : Storage) (key : string) : Storage := delete key st.

(** ** [FormData]: the appended fields, in order, values coerced to strings *)

Abbreviation FormData := (list (string * string)).

Definition append (data : FormData) (name : string) (v : jsval) : FormData :=
  data ++ [(name, to_string v)].

(** ** Requests, responses, clients *)

Record Request : Type := {
  method : string;
  url : string;
  headers : gmap string jsval
}.

Definition set_header (request : Request) (name : string) (v : jsval) : Request :=
  {| method := method request; url := url request;
     headers := <[name := v]> (headers request) |}.

Record Response : Type := {
  status : nat;
  data : jsval
}.

(** The names of the functions this file registers on a client. *)
Inductive RequestHook : Type := RequestInterceptor.
Inductive RefreshHook : Type := RefreshAuthLogic.

Record Client : Type := {
  baseURL : jsval;
  request_hooks : list RequestHook;
  auth_refresh : option RefreshHook
}.

(** The third argument of [client.post]. *)
Record PostConfig : Type := {
  post_headers : list (string * jsval);
  skipAuthRefresh : jsval
}.

(** What is handed to the transport. *)
Inductive NetCall : Type :=
| CallGet (c : Client)
| CallPost (c : Client) (path : jsval) (body : FormData) (config : PostConfig)
| CallRequest (c : Client) (request : Request) (retry : bool).

Inductive Outcome : Type :=
| Fulfilled (r : Response)
| Failed (e : Error).

(** The failed request handed to the refresh logic. *)
Record FailedRequest : Type := {
  failed_config : Request;
  failed_error : Error
}.

(** ** Programs over storage and network *)

Inductive Prog (A : Type) : Type :=
| Ret (a : A)
| Throw (e : Error)
| GetItem (key : string) (k : option string -> Prog A)
| SetItem (key : string) (v : jsval) (k : Prog A)
| RemoveItem (key : string) (k : Prog A)
| Http (call : NetCall) (k : Outcome -> Prog A).

Arguments Ret {A} a.
Arguments Throw {A} e.
Arguments GetItem {A} key k.
Arguments SetItem {A} key v k.
Arguments RemoveItem {A} key k.
Arguments Http {A} call k.

Fixpoint bind {A B : Type} (p : Prog A) (f : A -> Prog B) : Prog B :=
  match p with
  | Ret a => f a
  | Throw e => Throw e
  | GetItem key k => GetItem key (fun o => bind (k o) f)
  | SetItem key v k => SetItem key v (bind k f)
  | RemoveItem key k => RemoveItem key (bind k f)
  | Http call k => Http call (fun o => bind (k o) f)
  end.

Declare Scope prog_scope.
Delimit Scope prog_scope with prog.
Notation "x <- p ;; q" := (bind p (fun x => q))
  (at level 100, p at next level, right associativity) : prog_scope.
Notation "p ;;; q" := (bind p (fun _ => q))
  (at level 100, right associativity) : prog_scope.

(** Lifting a JavaScript expression that may throw. *)
Definition lift {A : Type} (r : Error + A) : Prog A :=
  match r with inl e => Throw e | inr a => Ret a end.

(** How a promise settles. *)
Inductive Settled (A : Type) : Type :=
| Resolved (a : A)
| Rejected (e : Error).
Arguments Resolved {A} a.
Arguments Rejected {A} e.

(** The server: the answer to the [n]-th call handed to the transport. *)
Definition Network : Type := nat -> NetCall -> Outcome.

(** A run: the calls made, each with the storage as it was when the call
    left, the storage at the end, and how the program settled. *)
Record Run (A : Type) : Type := {
  trace : list (Storage * NetCall);
  final : Storage;
  settled : Settled A
}.
Arguments trace {A} r.
Arguments final {A} r.
Arguments settled {A} r.

Fixpoint exec {A : Type} (p : Prog A) (net : Network) (st : Storage)
    (tr : list (Storage * NetCall)) : Run A :=
  match p with
  | Ret a => {| trace := tr; final := st; settled := Resolved a |}
  | Throw e => {| trace := tr; final := st; settled := Rejected e |}
  | GetItem key k => exec (k (getItem st key)) net st tr
  | SetItem key v k => exec k net (setItem st key v) tr
  | RemoveItem key k => exec k net (removeItem st key) tr
  | Http call k => exec (k (net (length tr) call)) net st (tr ++ [(st, call)])
  end.

Definition run {A : Type} (p : Prog A) (net : Network) (st : Storage) : Run A :=
  exec p net st [].

(** ** The module [src/auth.js] *)

Section Auth.

(** [process.env], fixed for the lifetime of the module. *)
Variable env : Env.

(** The condition [process.env.VUE_APP_CLIENT_ID], tested at lines 43, 108
    and 156: the OAuth mode. *)
Definition isOAuth : bool := truthy (of_env (VUE_APP_CLIENT_ID env)).

(** [let oauthEndpoint = null; if (...) oauthEndpoint = ... || '/oauth/token'] *)
Definition oauthEndpoint : jsval :=
  if isOAuth
  then js_or (of_env (VUE_APP_OAUTH_ENDPOINT env)) (JStr "/oauth/token")
  else JNull.

Definition setAccessToken (token : jsval) : Prog unit :=
  SetItem "access_token" token (Ret tt).

Definition getAccessToken : Prog (option string) :=
  GetItem "access_token" Ret.

(** [a && b.length], with [b.length] read only when [a] is truthy. *)
Definition and_length (a b : jsval) : Error + bool :=
  if truthy a then length_truthy b else inr false.

Definition requestInterceptor (request : Request) : Prog Request :=
  (accessToken <- getAccessToken ;;
   if truthy (of_item accessToken)
   then Ret (set_header request "Authorization"
               (JStr ("Bearer " +:+ to_string (of_item accessToken))))
   else
     GetItem "csrfToken" (fun csrfToken =>
       if truthy (of_item csrfToken)
       then Ret (set_header request "X-CSRF-Token" (of_item csrfToken))
       else Ret request))%prog.

Definition createClient (endpoint skipAuthLogic : jsval) : Client :=
  if negb (truthy skipAuthLogic)
  then {| baseURL := endpoint;
          request_hooks := [RequestInterceptor];
          auth_refresh := if isOAuth then Some RefreshAuthLogic else None |}
  else {| baseURL := endpoint; request_hooks := []; auth_refresh := None |}.

Definition csrfEndpoint : jsval :=
  js_or (of_env (VUE_APP_CSRF_TOKEN_ENDPOINT env)) (JStr "/session/token").

(** The module-level [tokenClient], as assigned at lines 156-160. *)
Definition tokenClient : Client :=
  if isOAuth
  then createClient oauthEndpoint (JBool true)
  else createClient csrfEndpoint (JBool true).

(** Lines 156-165.  The rejection of the unawaited [get()] is observed by
    nobody; it is kept as the way the program settles. *)
Definition moduleInit : Prog unit :=
  if isOAuth
  then Ret tt
  else
    Http (CallGet tokenClient) (fun out =>
      match out with
      | Fulfilled response => SetItem "csrfToken" (data response) (Ret tt)
      | Failed e => Throw e
      end).

Definition refreshConfig : PostConfig :=
  {| post_headers :=
       [("Content-Type", JStr "application/x-www-form-urlencoded");
        ("Authorization", JNull)];
     skipAuthRefresh := JBool true |}.

Definition refreshAuthLogic (failedRequest : FailedRequest) : Prog FailedRequest :=
  (let data0 := append [] "grant_type" (JStr "refresh_token") in
   let data1 := append data0 "client_id" (of_env (VUE_APP_CLIENT_ID env)) in
   GetItem "refresh_token" (fun stored =>
     let data2 := append data1 "refresh_token" (of_item stored) in
     withSecret <- lift (and_length (of_env (VUE_APP_CLIENT_SECRET env))
                                    (of_env (VUE_APP_CLIENT_SECRET env))) ;;
     let data3 :=
       if (withSecret : bool)
       then append data2 "client_secret" (of_env (VUE_APP_CLIENT_SECRET env))
       else data2 in
     Http (CallPost tokenClient (JStr "") data3 refreshConfig) (fun out =>
       match out with
       | Fulfilled tokenRefreshResponse =>
           access <- lift (get_prop (data tokenRefreshResponse) "access_token") ;;
           setAccessToken access ;;;
           refresh <- lift (get_prop (data tokenRefreshResponse) "refresh_token") ;;
           SetItem "refresh_token" refresh (Ret failedRequest)
       | Failed e => Throw e
       end)))%prog.

Definition loginConfig : PostConfig :=
  {| post_headers :=
       [("Content-Type", JStr "application/x-www-form-urlencoded")];
     skipAuthRefresh := JUndefined |}.

Definition loginUserCredentials (username password : string) : Prog Response :=
  (let data0 := append [] "grant_type" (JStr "password") in
   let data1 := append data0 "client_id" (of_env (VUE_APP_CLIENT_ID env)) in
   let data2 := append data1 "username" (JStr username) in
   let data3 := append data2 "password" (JStr password) in
   withSecret <- lift (and_length (of_env (VUE_APP_CLIENT_SECRET env))
                                  (of_env (VUE_APP_CLIENT_ID env))) ;;
   let data4 :=
     if (withSecret : bool)
     then append data3 "client_secret" (of_env (VUE_APP_CLIENT_SECRET env))
     else data3 in
   withRedirect <- lift (and_length (of_env (VUE_APP_REDIRECT_URI env))
                                    (of_env (VUE_APP_REDIRECT_URI env))) ;;
   let data5 :=
     if (withRedirect : bool)
     then append data4 "redirect_uri" (of_env (VUE_APP_REDIRECT_URI env))
     else data4 in
   setAccessToken JNull ;;;
   Http (CallPost tokenClient oauthEndpoint data5 loginConfig) (fun out =>
     match out with
     | Fulfilled response =>
         access <- lift (get_prop (data response) "access_token") ;;
         setAccessToken access ;;;
         refresh <- lift (get_prop (data response) "refresh_token") ;;
         SetItem "refresh_token" refresh
           (SetItem "username" (JStr username) (Ret response))
     | Failed error => Throw error
     end))%prog.

Definition logoutUser : Prog unit :=
  RemoveItem "access_token"
    (RemoveItem "refresh_token"
       (RemoveItem "username" (Ret tt))).

(** ** The transport around the module *)

Definition run_request_hook (h : RequestHook) : Request -> Prog Request :=
  match h with RequestInterceptor => requestInterceptor end.

Definition run_refresh_hook (h : RefreshHook) : FailedRequest -> Prog FailedRequest :=
  match h with RefreshAuthLogic => refreshAuthLogic end.

(** Modelled from the spec: the before-send half of the HTTP transport
    (axios, an external dependency with no source under [src/]).  Spec 4.3:
    the request mutator is invoked by the transport immediately before every
    outgoing request made through a client it is attached to. *)
Fixpoint apply_request_hooks (hooks : list RequestHook) (request : Request)
    : Prog Request :=
  match hooks with
  | [] => Ret request
  | h :: rest =>
      (mutated <- run_request_hook h request ;; apply_request_hooks rest mutated)%prog
  end.

Definition is401 (e : Error) : bool :=
  match e with HttpError 401 _ => true | _ => false end.

(** Modelled from the spec: the response-failure half of the transport
    (axios-auth-refresh, an external dependency with no source under
    [src/]).  Spec 4.4: on an authorization failure the refresh logic is
    invoked once with the failed request; when it resolves the original
    request is replayed, when it rejects the rejection goes to the original
    caller; a replayed request is exempt from a further refresh. *)
Definition send (c : Client) (request : Request) : Prog Response :=
  (sent <- apply_request_hooks (request_hooks c) request ;;
   Http (CallRequest c sent false) (fun out =>
     match out with
     | Fulfilled response => Ret response
     | Failed e =>
         match auth_refresh c with
         | Some h =>
             if is401 e
             then
               run_refresh_hook h {| failed_config := sent; failed_error := e |} ;;;
               again <- apply_request_hooks (request_hooks c) sent ;;
               Http (CallRequest c again true) (fun out' =>
                 match out' with
                 | Fulfilled response => Ret response
                 | Failed e' => Throw e'
                 end)
             else Throw e
         | None => Throw e
         end
     end))%prog.

End Auth.

(** ** Derived notions used in the statements *)

(** [writes_spare key p]: no [setItem] or [removeItem] of [p] names [key]. *)
Fixpoint writes_spare {A : Type} (key : string) (p : Prog A) : Prop :=
  match p with
  | Ret _ | Throw _ => True
  | GetItem _ k => ∀ o, writes_spare key (k o)
  | SetItem key' _ k => key' ≠ key ∧ writes_spare key k
  | RemoveItem key' k => key' ≠ key ∧ writes_spare key k
  | Http _ k => ∀ o, writes_spare key (k o)
  end.

(** The request [requestInterceptor] returns when the storage is [st]. *)
Definition intercepted (st : Storage) (request : Request) : Request :=
  match settled (run (requestInterceptor request) (fun _ _ => Failed NetworkError) st) with
  | Resolved sent => sent
  | Rejected _ => request
  end.

(** An entry the interceptor passes over: missing, or the empty string. *)
Definition unusable (st : Storage) (key : string) : Prop :=
  st !! key = None ∨ st !! key = Some "".

(** The form [refreshAuthLogic] builds when the storage is [st]. *)
Definition refresh_form (env : Env) (st : Storage) : FormData :=
  [("grant_type", "refresh_token");
   ("client_id", to_string (of_env (VUE_APP_CLIENT_ID env)));
   ("refresh_token", to_string (of_item (st !! "refresh_token")))]
  ++ (if truthy (of_env (VUE_APP_CLIENT_SECRET env))
      then [("client_secret", to_string (of_env (VUE_APP_CLIENT_SECRET env)))]
      else []).

Definition refresh_post (env : Env) (st : Storage) : NetCall :=
  CallPost (tokenClient env) (JStr "") (refresh_form env st) refreshConfig.

(** The storage after a response whose body is [body] has been taken in. *)
Definition tokens_stored (st : Storage) (body : jsval) : Storage :=
  match get_prop body "access_token", get_prop body "refresh_token" with
  | inr access, inr refresh =>
      setItem (setItem st "access_token" access) "refresh_token" refresh
  | _, _ => st
  end.

(** The form [loginUserCredentials] builds in OAuth mode. *)
Definition login_form (env : Env) (username password : string) : FormData :=
  [("grant_type", "password");
   ("client_id", to_string (of_env (VUE_APP_CLIENT_ID env)));
   ("username", username);
   ("password", password)]
  ++ (if truthy (of_env (VUE_APP_CLIENT_SECRET env))
      then [("client_secret", to_string (of_env (VUE_APP_CLIENT_SECRET env)))]
      else [])
  ++ (if truthy (of_env (VUE_APP_REDIRECT_URI env))
      then [("redirect_uri", to_string (of_env (VUE_APP_REDIRECT_URI env)))]
      else []).

Definition login_post (env : Env) (username password : string) : NetCall :=
  CallPost (tokenClient env) (oauthEndpoint env)
    (login_form env username password) loginConfig.

(** The storage after a login response whose body is [body]. *)
Definition login_stored (st : Storage) (username : string) (body : jsval) : Storage :=
  match get_prop body "access_token", get_prop body "refresh_token" with
  | inr access, inr refresh =>
      setItem (setItem (setItem st "access_token" access) "refresh_token" refresh)
        "username" (JStr username)
  | _, _ => st
  end.

(** The POSTs of a run, in order. *)
Definition is_post (call : NetCall) : bool :=
  match call with CallPost _ _ _ _ => true | _ => false end.

Definition posts (tr : list (Storage * NetCall)) : list NetCall :=
  List.filter is_post (map snd tr).

(** ** Sample configurations and data *)

Definition env_oauth : Env :=
  {| VUE_APP_CLIENT_ID := Some "7476498b";
     VUE_APP_CLIENT_SECRET := Some "averysecretpassword";
     VUE_APP_OAUTH_ENDPOINT := None;
     VUE_APP_REDIRECT_URI := None;
     VUE_APP_CSRF_TOKEN_ENDPOINT := None |}.

Definition env_csrf : Env :=
  {| VUE_APP_CLIENT_ID := None;
     VUE_APP_CLIENT_SECRET := None;
     VUE_APP_OAUTH_ENDPOINT := None;
     VUE_APP_REDIRECT_URI := None;
     VUE_APP_CSRF_TOKEN_ENDPOINT := None |}.

Definition sample_request : Request :=
  {| method := "GET"; url := "/jsonapi/node/article"; headers := ∅ |}.

Definition sample_failed : FailedRequest :=
  {| failed_config := sample_request; failed_error := HttpError 401 JNull |}.

Definition net_down : Network := fun _ _ => Failed NetworkError.

Definition token_body (access refresh : string) : jsval :=
  JObj [("access_token", JStr access); ("refresh_token", JStr refresh)].

Definition net_refresh_ok : Network := fun n _ =>
  match n with
  | 0 => Failed (HttpError 401 JNull)
  | _ => Fulfilled {| status := 200; data := token_body "A2" "R2" |}
  end.

Definition net_refresh_down : Network := fun n _ =>
  match n with
  | 0 => Failed (HttpError 401 JNull)
  | _ => Failed (HttpError 400 (JStr "invalid_grant"))
  end.

Definition net_login_ok : Network := fun _ _ =>
  Fulfilled {| status := 200; data := token_body "T1" "R1" |}.

(** ** Running programs: general facts *)

Section Exec.

Context {A : Type}.
Variable net : Network.

(** Calls already made stay in the trace, in order. *)
Lemma exec_trace_prefix (p : Prog A) st tr :
  ∃ more, trace (exec p net st tr) = tr ++ more.
Proof.
  revert st tr.
  induction p as [a | e | key k IH | key v k IH | key k IH | call k IH];
    intros st tr; simpl.
  - exists []. by rewrite app_nil_r.
  - exists []. by rewrite app_nil_r.
  - apply IH.
  - apply IH.
  - apply IH.
  - destruct (IH (net (length tr) call) st (tr ++ [(st, call)])) as [more Hm].
    exists ((st, call) :: more). rewrite Hm. by rewrite <- app_assoc.
Qed.

(** Sequencing: the second program starts where the first one stopped. *)
Lemma exec_bind {B : Type} (p : Prog A) (f : A -> Prog B) st tr :
  exec (bind p f) net st tr =
  match settled (exec p net st tr) with
  | Resolved a => exec (f a) net (final (exec p net st tr)) (trace (exec p net st tr))
  | Rejected e => {| trace := trace (exec p net st tr);
                     final := final (exec p net st tr);
                     settled := Rejected e |}
  end.
Proof.
  revert st tr.
  induction p as [a | e | key k IH | key v k IH | key k IH | call k IH];
    intros st tr; simpl; auto.
Qed.

Lemma exec_writes_spare key (p : Prog A) st tr :
  writes_spare key p → final (exec p net st tr) !! key = st !! key.
Proof.
  revert st tr.
  induction p as [a | e | key' k IH | key' v k IH | key' k IH | call k IH];
    intros st tr Hp; simpl in *; auto.
  - destruct Hp as [Hne Hk]. rewrite IH by done.
    unfold setItem. by rewrite lookup_insert_ne.
  - destruct Hp as [Hne Hk]. rewrite IH by done.
    unfold removeItem. by rewrite lookup_delete_ne.
Qed.

End Exec.

Lemma writes_spare_bind {A B : Type} key (p : Prog A) (f : A -> Prog B) :
  writes_spare key p → (∀ a, writes_spare key (f a)) →
  writes_spare key (bind p f).
Proof.
  intros Hp Hf.
  induction p as [a | e | key' k IH | key' v k IH | key' k IH | call k IH];
    simpl in *; auto.
  - split; [apply Hp | apply IH, Hp].
  - split; [apply Hp | apply IH, Hp].
Qed.

Lemma writes_spare_lift {A : Type} key (r : Error + A) :
  writes_spare key (lift r).
Proof. by destruct r. Qed.

(** ** Truthiness of configuration and storage entries *)

Lemma truthy_of_env o : truthy (of_env o) = true ↔ ∃ s, o = Some s ∧ s ≠ "".
Proof.
  destruct o as [s |]; simpl.
  - destruct (decide (s = "")) as [-> | Hne]; split.
    + discriminate.
    + intros (s & [= <-] & Hs). done.
    + eauto.
    + done.
  - split; [discriminate | intros (s & ? & _); discriminate].
Qed.

Lemma length_truthy_JStr s : s ≠ "" → length_truthy (JStr s) = inr true.
Proof. destruct s; [done | reflexivity]. Qed.

(** [a && a.length] on a configuration entry never throws and is the
    truthiness of the entry. *)
Lemma and_length_self o :
  and_length (of_env o) (of_env o) = inr (truthy (of_env o)).
Proof.
  unfold and_length. destruct o as [s |]; simpl; [| done].
  destruct (decide (s = "")) as [-> | Hne]; [done |].
  destruct s; [done | reflexivity].
Qed.

(** ** The client factory *)

(** C5. [createClient(endpoint, skipAuthLogic)] is total; with a truthy
    [skipAuthLogic] the client has neither the request interceptor nor the
    refresh interceptor; with a falsy one it has the request interceptor,
    and the refresh interceptor exactly when [VUE_APP_CLIENT_ID] is present
    and non-empty (OAuth mode). *)
Theorem createClient_attachments (env : Env) (endpoint skipAuthLogic : jsval) :
  let c := createClient env endpoint skipAuthLogic in
  baseURL c = endpoint ∧
  (truthy skipAuthLogic = true →
     request_hooks c = [] ∧ auth_refresh c = None) ∧
  (truthy skipAuthLogic = false →
     request_hooks c = [RequestInterceptor] ∧
     (auth_refresh c = Some RefreshAuthLogic ↔
        ∃ cid, VUE_APP_CLIENT_ID env = Some cid ∧ cid ≠ "") ∧
     (auth_refresh c = None ↔ isOAuth env = false)).
Proof.
  unfold createClient. simpl.
  pose proof (truthy_of_env (VUE_APP_CLIENT_ID env)) as Hmode.
  fold (isOAuth env) in Hmode.
  destruct (truthy skipAuthLogic); simpl.
  - split; [done |]. split; [done | discriminate].
  - split; [done |]. split; [discriminate |]. intros _.
    split; [done |].
    destruct (isOAuth env); simpl.
    + split; [| split; discriminate].
      split; [intros _; by apply Hmode | done].
    + split; [| done].
      split; [discriminate |]. intros H. apply Hmode in H. discriminate.
Qed.

Lemma createClient_attachments_witness :
  request_hooks (createClient env_oauth (JStr "https://my.site.dev/jsonapi") JUndefined)
    = [RequestInterceptor] ∧
  request_hooks (createClient env_oauth (JStr "/oauth/token") (JBool true)) = [].
Proof.
  split.
  - apply (createClient_attachments env_oauth (JStr "https://my.site.dev/jsonapi") JUndefined).
    reflexivity.
  - apply (createClient_attachments env_oauth (JStr "/oauth/token") (JBool true)).
    reflexivity.
Defined.

(** ** Mode and bootstrap *)

Lemma tokenClient_bare (env : Env) :
  request_hooks (tokenClient env) = [] ∧ auth_refresh (tokenClient env) = None.
Proof. unfold tokenClient. by destruct (isOAuth env). Qed.

(** C6 (as the code has it). The mode is OAuth exactly when
    [VUE_APP_CLIENT_ID] is present and non-empty.  In Csrf mode the module
    initialization issues a single GET on a client created with
    [skipAuthLogic] true, so without interceptor, bound to
    [VUE_APP_CSRF_TOKEN_ENDPOINT] when that is non-empty and to
    [/session/token] otherwise; on success it stores the string coercion
    of the response data as [csrfToken] (the body itself when the data is
    a string) and touches nothing else; on failure it stores nothing.  In
    OAuth mode it makes no call and leaves the storage as it was. *)
Theorem moduleInit_by_mode (env : Env) (net : Network) (st : Storage) :
  let r := run (moduleInit env) net st in
  let c := tokenClient env in
  (isOAuth env = true ↔ ∃ cid, VUE_APP_CLIENT_ID env = Some cid ∧ cid ≠ "") ∧
  (isOAuth env = false →
     trace r = [(st, CallGet c)] ∧
     c = createClient env (baseURL c) (JBool true) ∧
     request_hooks c = [] ∧ auth_refresh c = None ∧
     (∀ s, VUE_APP_CSRF_TOKEN_ENDPOINT env = Some s → s ≠ "" →
           baseURL c = JStr s) ∧
     (VUE_APP_CSRF_TOKEN_ENDPOINT env = None ∨
      VUE_APP_CSRF_TOKEN_ENDPOINT env = Some "" →
      baseURL c = JStr "/session/token") ∧
     (∀ response,
        net 0 (CallGet c) = Fulfilled response →
        final r = <["csrfToken" := to_string (data response)]> st ∧
        settled r = Resolved tt) ∧
     (∀ response body,
        net 0 (CallGet c) = Fulfilled response →
        data response = JStr body →
        final r = <["csrfToken" := body]> st) ∧
     (∀ e, net 0 (CallGet c) = Failed e →
           final r = st ∧ settled r = Rejected e)) ∧
  (isOAuth env = true →
     trace r = [] ∧ final r = st ∧ settled r = Resolved tt).
Proof.
  simpl. split; [apply truthy_of_env |].
  unfold run, moduleInit, tokenClient.
  destruct (isOAuth env); simpl.
  - split; [discriminate | done].
  - split; [| discriminate]. intros _.
    split; [by destruct (net 0 _) |].
    do 3 (split; [done |]).
    split; [| split; [| split; [| split]]].
    + intros s Hs Hne. unfold csrfEndpoint, js_or. rewrite Hs. simpl.
      by destruct (decide (s = "")).
    + unfold csrfEndpoint, js_or. by intros [-> | ->].
    + intros response Hnet. by rewrite Hnet.
    + intros response body Hnet Hbody. rewrite Hnet. simpl.
      unfold setItem. by rewrite Hbody.
    + intros e Hnet. by rewrite Hnet.
Qed.

Lemma moduleInit_by_mode_witness :
  final (run (moduleInit env_csrf)
           (fun _ _ => Fulfilled {| status := 200; data := JStr "tok123" |}) ∅)
    = <["csrfToken" := "tok123"]> ∅ ∧
  baseURL (tokenClient
             {| VUE_APP_CLIENT_ID := None;
                VUE_APP_CLIENT_SECRET := None;
                VUE_APP_OAUTH_ENDPOINT := None;
                VUE_APP_REDIRECT_URI := None;
                VUE_APP_CSRF_TOKEN_ENDPOINT := Some "/v1/user/token" |})
    = JStr "/v1/user/token" ∧
  trace (run (moduleInit env_oauth) net_down {["access_token" := "A1"]}) = [].
Proof.
  split; [| split].
  - destruct (moduleInit_by_mode env_csrf
                (fun _ _ => Fulfilled {| status := 200; data := JStr "tok123" |}) ∅)
      as (_ & Hcsrf & _).
    destruct (Hcsrf eq_refl) as (_ & _ & _ & _ & _ & _ & _ & Htext & _).
    apply (Htext {| status := 200; data := JStr "tok123" |} "tok123");
      reflexivity.
  - destruct (moduleInit_by_mode
                {| VUE_APP_CLIENT_ID := None;
                   VUE_APP_CLIENT_SECRET := None;
                   VUE_APP_OAUTH_ENDPOINT := None;
                   VUE_APP_REDIRECT_URI := None;
                   VUE_APP_CSRF_TOKEN_ENDPOINT := Some "/v1/user/token" |}
                net_down ∅) as (_ & Hcsrf & _).
    destruct (Hcsrf eq_refl) as (_ & _ & _ & _ & Hconfigured & _).
    apply (Hconfigured "/v1/user/token"); [reflexivity | discriminate].
  - destruct (moduleInit_by_mode env_oauth net_down {["access_token" := "A1"]})
      as (_ & _ & Hoauth).
    apply Hoauth. reflexivity.
Defined.

(** C6, as stated, fails on the stored value: a fetch answered with data
    that is not a string does not store it verbatim.  With an object as
    data the entry written is the string [[object Object]]. *)
Lemma moduleInit_by_mode_counterexample :
  let net : Network := fun _ _ =>
    Fulfilled {| status := 200; data := JObj [("token", JStr "tok123")] |} in
  let r := run (moduleInit env_csrf) net ∅ in
  isOAuth env_csrf = false ∧
  map snd (trace r) = [CallGet (tokenClient env_csrf)] ∧
  settled r = Resolved tt ∧
  final r !! "csrfToken" = Some "[object Object]".
Proof. vm_compute. repeat split. Qed.

(** ** Logout *)

(** C8. [logoutUser] makes no call, cannot fail, removes [access_token],
    [refresh_token] and [username] and nothing else, and run a second time
    (or on a storage that never held them) ends in the same storage. *)
Theorem logoutUser_clears_idempotent (net : Network) (st : Storage) :
  let r := run logoutUser net st in
  trace r = [] ∧
  settled r = Resolved tt ∧
  final r !! "access_token" = None ∧
  final r !! "refresh_token" = None ∧
  final r !! "username" = None ∧
  (∀ key, key ∉ ["access_token"; "refresh_token"; "username"] →
          final r !! key = st !! key) ∧
  run logoutUser net (final r) = r ∧
  final (run logoutUser net ∅) = ∅.
Proof.
  unfold run, logoutUser. simpl. unfold removeItem.
  repeat split.
  - rewrite lookup_delete_ne by done. rewrite lookup_delete_ne by done.
    apply lookup_delete_eq.
  - rewrite lookup_delete_ne by done. apply lookup_delete_eq.
  - apply lookup_delete_eq.
  - intros key Hkey.
    rewrite !lookup_delete_ne; [done | | |];
      intros <-; apply Hkey; set_solver.
  - f_equal. apply map_eq. intros key.
    rewrite !lookup_delete. by repeat case_decide.
Qed.

Lemma logoutUser_clears_idempotent_witness :
  final (run logoutUser net_down {["access_token" := "T1"; "csrfToken" := "tok123"]})
    !! "csrfToken" = Some "tok123".
Proof.
  pose proof (logoutUser_clears_idempotent net_down
                {["access_token" := "T1"; "csrfToken" := "tok123"]}) as H.
  simpl in H. destruct H as (_ & _ & _ & _ & _ & Hframe & _).
  rewrite Hframe; [reflexivity |].
  rewrite !elem_of_cons. rewrite elem_of_nil.
  intros [H | [H | [H | []]]]; discriminate H.
Defined.

(** ** The request interceptor *)

(** The interceptor only reads the storage, makes no call and always
    returns a request. *)
Lemma requestInterceptor_exec net st tr request :
  exec (requestInterceptor request) net st tr =
  {| trace := tr; final := st; settled := Resolved (intercepted st request) |}.
Proof.
  unfold intercepted, run, requestInterceptor, getAccessToken. simpl.
  destruct (truthy (of_item (getItem st "access_token"))); simpl; [done |].
  destruct (truthy (of_item (getItem st "csrfToken"))); done.
Qed.

Lemma intercepted_access st request t :
  st !! "access_token" = Some t → t ≠ "" →
  intercepted st request = set_header request "Authorization" (JStr ("Bearer " +:+ t)).
Proof.
  intros Ht Hne. unfold intercepted, run, requestInterceptor, getAccessToken.
  simpl. unfold getItem. rewrite Ht. simpl.
  by destruct (decide (t = "")).
Qed.

Lemma unusable_falsy st key : unusable st key → truthy (of_item (getItem st key)) = false.
Proof. unfold getItem. by intros [-> | ->]. Qed.

Lemma intercepted_csrf st request t :
  unusable st "access_token" → st !! "csrfToken" = Some t → t ≠ "" →
  intercepted st request = set_header request "X-CSRF-Token" (JStr t).
Proof.
  intros Ha Ht Hne. unfold intercepted, run, requestInterceptor, getAccessToken.
  simpl. rewrite (unusable_falsy _ _ Ha). simpl.
  unfold getItem. rewrite Ht. simpl.
  by destruct (decide (t = "")).
Qed.

Lemma intercepted_none st request :
  unusable st "access_token" → unusable st "csrfToken" →
  intercepted st request = request.
Proof.
  intros Ha Hc. unfold intercepted, run, requestInterceptor, getAccessToken.
  simpl. rewrite (unusable_falsy _ _ Ha). simpl.
  by rewrite (unusable_falsy _ _ Hc).
Qed.

Lemma apply_request_hooks_exec net st tr hooks request :
  exec (apply_request_hooks hooks request) net st tr =
  {| trace := tr; final := st;
     settled := Resolved (fold_left (fun r _ => intercepted st r) hooks request) |}.
Proof.
  revert request. induction hooks as [| [] rest IH]; intros request; [done |].
  cbn [apply_request_hooks run_request_hook].
  rewrite exec_bind, requestInterceptor_exec. cbn [settled final trace].
  by rewrite IH.
Qed.

(** The first call of [send] carries the request as the attached hooks
    left it. *)
Lemma send_first_call env c net st request :
  head (trace (run (send env c request) net st)) =
  Some (st, CallRequest c (fold_left (fun r _ => intercepted st r) (request_hooks c) request) false).
Proof.
  unfold run, send. rewrite exec_bind, apply_request_hooks_exec. simpl.
  match goal with
  | |- head (trace (exec ?p _ _ ?tr)) = _ =>
      destruct (exec_trace_prefix net p st tr) as [more ->]
  end.
  done.
Qed.

(** C1 (as the code has it). For a client created with a falsy
    [skipAuthLogic], the request that leaves is the one the request
    interceptor returns, and the interceptor makes no call, changes no
    storage and always returns: with a non-empty [access_token] stored it
    sets [Authorization] to [Bearer <access_token>] and adds no
    [X-CSRF-Token]; with no usable [access_token] (absent or empty) and a
    non-empty [csrfToken] it sets [X-CSRF-Token] to the token and adds no
    [Authorization]; with neither usable the request is unmodified. *)
Theorem requestInterceptor_precedence
    (env : Env) (endpoint skipAuthLogic : jsval)
    (net : Network) (st : Storage) (request : Request) :
  truthy skipAuthLogic = false →
  let c := createClient env endpoint skipAuthLogic in
  ∃ sent,
    run (requestInterceptor request) net st =
      {| trace := []; final := st; settled := Resolved sent |} ∧
    head (trace (run (send env c request) net st)) =
      Some (st, CallRequest c sent false) ∧
    (∀ t, st !! "access_token" = Some t → t ≠ "" →
       sent = set_header request "Authorization" (JStr ("Bearer " +:+ t)) ∧
       headers sent !! "Authorization" = Some (JStr ("Bearer " +:+ t)) ∧
       headers sent !! "X-CSRF-Token" = headers request !! "X-CSRF-Token") ∧
    (∀ t, unusable st "access_token" → st !! "csrfToken" = Some t → t ≠ "" →
       sent = set_header request "X-CSRF-Token" (JStr t) ∧
       headers sent !! "X-CSRF-Token" = Some (JStr t) ∧
       headers sent !! "Authorization" = headers request !! "Authorization") ∧
    (unusable st "access_token" → unusable st "csrfToken" → sent = request).
Proof.
  intros Hskip c. exists (intercepted st request).
  split; [apply requestInterceptor_exec |].
  split.
  { rewrite send_first_call. subst c. unfold createClient. by rewrite Hskip. }
  split; [| split].
  - intros t Ht Hne. rewrite (intercepted_access _ _ _ Ht Hne). simpl.
    split; [done |]. split; [apply lookup_insert_eq | by apply lookup_insert_ne].
  - intros t Ha Ht Hne. rewrite (intercepted_csrf _ _ _ Ha Ht Hne). simpl.
    split; [done |]. split; [apply lookup_insert_eq | by apply lookup_insert_ne].
  - apply intercepted_none.
Qed.

Lemma requestInterceptor_precedence_witness :
  ∃ sent,
    run (requestInterceptor sample_request) net_down {["access_token" := "T1"]} =
      {| trace := []; final := {["access_token" := "T1"]}; settled := Resolved sent |} ∧
    headers sent !! "Authorization" = Some (JStr "Bearer T1").
Proof.
  destruct (requestInterceptor_precedence env_oauth JUndefined JUndefined net_down
              {["access_token" := "T1"]} sample_request eq_refl)
    as (sent & Hrun & _ & Haccess & _).
  exists sent. split; [exact Hrun |].
  apply (Haccess "T1"); [reflexivity | discriminate].
Defined.

(** C1, as stated, fails in two ways.  An [access_token] that is present
    but empty is passed over: the request gets no [Authorization] header,
    and the CSRF header instead.  And a request that already carries an
    [X-CSRF-Token] header keeps it when the bearer header is set. *)
Lemma requestInterceptor_precedence_counterexample :
  let st1 : Storage := {["access_token" := ""; "csrfToken" := "tok123"]} in
  let st2 : Storage := {["access_token" := "T1"]} in
  let carrying := set_header sample_request "X-CSRF-Token" (JStr "mine") in
  (getItem st1 "access_token" = Some "" ∧
   headers (intercepted st1 sample_request) !! "Authorization" = None ∧
   headers (intercepted st1 sample_request) !! "X-CSRF-Token" = Some (JStr "tok123")) ∧
  (getItem st2 "access_token" = Some "T1" ∧
   headers (intercepted st2 carrying) !! "Authorization" = Some (JStr "Bearer T1") ∧
   headers (intercepted st2 carrying) !! "X-CSRF-Token" = Some (JStr "mine")).
Proof. vm_compute. repeat split. Qed.

(** ** The refresh logic *)

Lemma get_prop_total_together body name name' e :
  get_prop body name = inl e → get_prop body name' = inl e.
Proof. by destruct body. Qed.

Lemma refreshAuthLogic_exec env failedRequest net st tr :
  let r := exec (refreshAuthLogic env failedRequest) net st tr in
  trace r = tr ++ [(st, refresh_post env st)] ∧
  match net (length tr) (refresh_post env st) with
  | Failed e => final r = st ∧ settled r = Rejected e
  | Fulfilled response =>
      final r = tokens_stored st (data response) ∧
      settled r =
        match get_prop (data response) "access_token" with
        | inr _ => Resolved failedRequest
        | inl e => Rejected e
        end
  end.
Proof.
  unfold refreshAuthLogic, refresh_post, refresh_form, tokens_stored.
  cbn [exec getItem]. rewrite and_length_self. unfold append.
  destruct (truthy (of_env (VUE_APP_CLIENT_SECRET env))); cbn -[get_prop];
    (destruct (net (length tr) _) as [response | e]; [| done]);
    (destruct (get_prop (data response) "access_token") as [e | access] eqn:Ha;
       [by rewrite (get_prop_total_together _ _ "refresh_token" _ Ha) |]);
    (destruct (get_prop (data response) "refresh_token") as [e | refresh] eqn:Hr;
       [by destruct (data response) |]);
    done.
Qed.

Lemma refresh_form_fields env st :
  ("grant_type", "refresh_token") ∈ refresh_form env st ∧
  ("client_id", to_string (of_env (VUE_APP_CLIENT_ID env))) ∈ refresh_form env st ∧
  ("refresh_token", to_string (of_item (st !! "refresh_token"))) ∈ refresh_form env st ∧
  (∀ s, ("client_secret", s) ∈ refresh_form env st ↔
        VUE_APP_CLIENT_SECRET env = Some s ∧ s ≠ "").
Proof.
  unfold refresh_form.
  do 3 (split; [rewrite elem_of_app, !elem_of_cons; tauto |]).
  intros s. rewrite elem_of_app, !elem_of_cons, elem_of_nil.
  destruct (VUE_APP_CLIENT_SECRET env) as [secret |]; simpl.
  - destruct (decide (secret = "")) as [-> | Hne].
    + rewrite elem_of_nil. split.
      * intros [[H | [H | [H | []]]] | []]; discriminate H.
      * intros [[= <-] Hne]. done.
    + rewrite elem_of_cons, elem_of_nil. split.
      * intros [[H | [H | [H | []]]] | [[= ->] | []]]; try discriminate H. done.
      * intros [[= <-] _]. tauto.
  - rewrite elem_of_nil. split.
    + intros [[H | [H | [H | []]]] | []]; discriminate H.
    + intros [[=] _].
Qed.

(** ** A request through a client with both interceptors *)

Section Send.

Variable env : Env.
Variable c : Client.
Hypothesis Hhooks : request_hooks c = [RequestInterceptor].
Hypothesis Hrefresh : auth_refresh c = Some RefreshAuthLogic.

Variable net : Network.
Variable st : Storage.
Variable request : Request.
Variable denial : jsval.

Let sent := intercepted st request.
Let first := CallRequest c sent false.

Hypothesis Hdenied : net 0 first = Failed (HttpError 401 denial).

Lemma send_refresh_rejected e :
  net 1 (refresh_post env st) = Failed e →
  run (send env c request) net st =
  {| trace := [(st, first); (st, refresh_post env st)];
     final := st; settled := Rejected e |}.
Proof using Hhooks Hrefresh Hdenied.
  intros Hfail. unfold run, send.
  rewrite exec_bind, apply_request_hooks_exec, Hhooks. cbn [fold_left settled final trace].
  cbn [exec length app]. fold sent first. rewrite Hdenied, Hrefresh.
  cbn [is401 run_refresh_hook].
  rewrite exec_bind.
  destruct (refreshAuthLogic_exec env {| failed_config := sent; failed_error := HttpError 401 denial |}
              net st [(st, first)]) as [Htr Hout].
  cbn [length] in Hout. rewrite Hfail in Hout. destruct Hout as [Hfin Hset].
  rewrite Hset, Htr, Hfin. done.
Qed.

Lemma send_refresh_resolved response :
  net 1 (refresh_post env st) = Fulfilled response →
  (∃ e, get_prop (data response) "access_token" = inl e ∧
        run (send env c request) net st =
        {| trace := [(st, first); (st, refresh_post env st)];
           final := st; settled := Rejected e |}) ∨
  (∃ access,
     get_prop (data response) "access_token" = inr access ∧
     let st' := tokens_stored st (data response) in
     let again := CallRequest c (intercepted st' sent) true in
     run (send env c request) net st =
     {| trace := [(st, first); (st, refresh_post env st); (st', again)];
        final := st';
        settled := match net 2 again with
                   | Fulfilled answer => Resolved answer
                   | Failed e => Rejected e
                   end |}).
Proof using Hhooks Hrefresh Hdenied.
  intros Hok.
  destruct (refreshAuthLogic_exec env {| failed_config := sent; failed_error := HttpError 401 denial |}
              net st [(st, first)]) as [Htr Hout].
  cbn [length] in Hout. rewrite Hok in Hout. destruct Hout as [Hfin Hset].
  assert (run (send env c request) net st =
          match settled (exec (refreshAuthLogic env
                   {| failed_config := sent; failed_error := HttpError 401 denial |})
                   net st [(st, first)]) with
          | Resolved _ =>
              exec (Http (CallRequest c (intercepted (tokens_stored st (data response)) sent) true)
                      (fun out' => match out' with
                                   | Fulfilled answer => Ret answer
                                   | Failed e' => Throw e'
                                   end))
                   net (tokens_stored st (data response))
                   [(st, first); (st, refresh_post env st)]
          | Rejected e =>
              {| trace := [(st, first); (st, refresh_post env st)];
                 final := tokens_stored st (data response);
                 settled := Rejected e |}
          end) as Hsend.
  { unfold run, send.
    rewrite exec_bind, apply_request_hooks_exec, Hhooks. cbn [fold_left settled final trace].
    cbn [exec length app]. fold sent first. rewrite Hdenied, Hrefresh.
    cbn [is401 run_refresh_hook].
    rewrite exec_bind, Htr, Hfin.
    destruct (settled (exec (refreshAuthLogic env _) net st [(st, first)])); [| done].
    rewrite exec_bind, apply_request_hooks_exec. done. }
  rewrite Hsend, Hset.
  destruct (get_prop (data response) "access_token") as [e | access] eqn:Ha.
  - left. exists e. split; [done |].
    unfold tokens_stored. by rewrite Ha.
  - right. exists access. split; [done |]. cbn [exec length app].
    by destruct (net 2 _).
Qed.

(** Whatever the token endpoint answers, one POST leaves, the refresh. *)
Lemma send_one_refresh_post :
  posts (trace (run (send env c request) net st)) = [refresh_post env st].
Proof using Hhooks Hrefresh Hdenied.
  destruct (net 1 (refresh_post env st)) as [response | e] eqn:Hnet.
  - destruct (send_refresh_resolved response Hnet)
      as [(e & _ & ->) | (access & _ & Hrun)].
    + done.
    + cbv zeta in Hrun. by rewrite Hrun.
  - by rewrite (send_refresh_rejected e Hnet).
Qed.

End Send.

Lemma createClient_oauth env endpoint skipAuthLogic :
  isOAuth env = true → truthy skipAuthLogic = false →
  request_hooks (createClient env endpoint skipAuthLogic) = [RequestInterceptor] ∧
  auth_refresh (createClient env endpoint skipAuthLogic) = Some RefreshAuthLogic.
Proof. intros Hmode Hskip. unfold createClient. by rewrite Hskip, Hmode. Qed.

Lemma tokenClient_oauth env :
  isOAuth env = true →
  tokenClient env =
  {| baseURL := oauthEndpoint env; request_hooks := []; auth_refresh := None |}.
Proof. intros Hmode. unfold tokenClient. by rewrite Hmode. Qed.

Lemma isOAuth_client_id env cid :
  VUE_APP_CLIENT_ID env = Some cid → cid ≠ "" → isOAuth env = true.
Proof. intros Hid Hne. apply truthy_of_env. eauto. Qed.

(** C2. In OAuth mode, a request through a factory client that fails with
    401 while a [refresh_token] is stored leads to exactly one POST, on the
    bare token client, whose form holds [grant_type=refresh_token],
    [client_id] (the configured id), [refresh_token] (the stored one) and
    [client_secret] exactly when the secret is configured and non-empty;
    when that POST succeeds with string tokens, [access_token] and
    [refresh_token] are overwritten with them, the refresh logic resolves
    with the failed request, and the request is sent once more. *)
Theorem refreshAuthLogic_on_401
    (env : Env) (endpoint skipAuthLogic : jsval) (net : Network) (st : Storage)
    (request : Request) (failedRequest : FailedRequest)
    (denial : jsval) (cid stored : string) :
  VUE_APP_CLIENT_ID env = Some cid → cid ≠ "" →
  truthy skipAuthLogic = false →
  st !! "refresh_token" = Some stored →
  let c := createClient env endpoint skipAuthLogic in
  let sent := intercepted st request in
  net 0 (CallRequest c sent false) = Failed (HttpError 401 denial) →
  ∃ form,
    let post := CallPost (tokenClient env) (JStr "") form refreshConfig in
    ("grant_type", "refresh_token") ∈ form ∧
    ("client_id", cid) ∈ form ∧
    ("refresh_token", stored) ∈ form ∧
    (∀ s, ("client_secret", s) ∈ form ↔
          VUE_APP_CLIENT_SECRET env = Some s ∧ s ≠ "") ∧
    request_hooks (tokenClient env) = [] ∧
    auth_refresh (tokenClient env) = None ∧
    baseURL (tokenClient env) = oauthEndpoint env ∧
    posts (trace (run (send env c request) net st)) = [post] ∧
    trace (run (refreshAuthLogic env failedRequest) net st) = [(st, post)] ∧
    ∀ response access refresh,
      net 1 post = Fulfilled response →
      get_prop (data response) "access_token" = inr (JStr access) →
      get_prop (data response) "refresh_token" = inr (JStr refresh) →
      let st' := <["refresh_token" := refresh]> (<["access_token" := access]> st) in
      st' !! "access_token" = Some access ∧
      st' !! "refresh_token" = Some refresh ∧
      run (refreshAuthLogic env failedRequest) (fun _ => net 1) st =
        {| trace := [(st, post)]; final := st'; settled := Resolved failedRequest |} ∧
      final (run (send env c request) net st) = st' ∧
      trace (run (send env c request) net st) =
        [(st, CallRequest c sent false); (st, post);
         (st', CallRequest c (intercepted st' sent) true)].
Proof.
  intros Hid Hne Hskip Hstored c sent Hdenied.
  pose proof (isOAuth_client_id env cid Hid Hne) as Hmode.
  destruct (createClient_oauth env endpoint skipAuthLogic Hmode Hskip) as [Hhooks Hrefresh].
  destruct (refresh_form_fields env st) as (Hgrant & Hcid & Htoken & Hsecret).
  rewrite Hid in Hcid. rewrite Hstored in Htoken. simpl in Hcid, Htoken.
  exists (refresh_form env st). cbv zeta. fold (refresh_post env st).
  do 4 (split; [done |]).
  rewrite (tokenClient_oauth env Hmode) at 1 2 3. do 3 (split; [done |]).
  split; [by apply (send_one_refresh_post env c Hhooks Hrefresh net st request denial) |].
  split; [apply (refreshAuthLogic_exec env failedRequest net st []) |].
  intros response access refresh Hok Haccess Hfresh.
  assert (tokens_stored st (data response) =
          <["refresh_token" := refresh]> (<["access_token" := access]> st)) as Hstore.
  { unfold tokens_stored. by rewrite Haccess, Hfresh. }
  split; [by rewrite lookup_insert_ne, lookup_insert_eq |].
  split; [by rewrite lookup_insert_eq |].
  split.
  { destruct (refreshAuthLogic_exec env failedRequest (fun _ => net 1) st []) as [Htr Hout].
    cbn [length] in Hout. rewrite Hok, Haccess, Hstore in Hout.
    destruct Hout as [Hfin Hset]. unfold run.
    destruct (exec (refreshAuthLogic env failedRequest) (fun _ => net 1) st []).
    simpl in *. by subst. }
  destruct (send_refresh_resolved env c Hhooks Hrefresh net st request denial Hdenied response Hok)
    as [(e & He & _) | (access' & _ & Hrun)].
  { rewrite Haccess in He. discriminate He. }
  cbv zeta in Hrun. rewrite Hrun, Hstore. done.
Qed.

Lemma refreshAuthLogic_on_401_witness :
  ∃ form,
    posts (trace (run (send env_oauth (createClient env_oauth JUndefined JUndefined)
                         sample_request) net_refresh_ok
                    {["access_token" := "A1"; "refresh_token" := "R1"]}))
    = [CallPost (tokenClient env_oauth) (JStr "") form refreshConfig] ∧
    ("refresh_token", "R1") ∈ form.
Proof.
  destruct (refreshAuthLogic_on_401 env_oauth JUndefined JUndefined net_refresh_ok
              {["access_token" := "A1"; "refresh_token" := "R1"]}
              sample_request sample_failed JNull "7476498b" "R1")
    as (form & _ & _ & Htoken & _ & _ & _ & _ & Hposts & _);
    [reflexivity | discriminate | reflexivity | reflexivity | reflexivity |].
  exists form. split; [exact Hposts | exact Htoken].
Defined.

(** C7. When the refresh POST fails, the refresh logic rejects with that
    failure and the request of the original caller rejects with it too;
    the trace holds the original request and the one refresh POST, with no
    replay and no second POST; the storage is as it was, so no token was
    cleared or overwritten and nothing was logged out. *)
Theorem refreshAuthLogic_failure_propagates
    (env : Env) (endpoint skipAuthLogic : jsval) (net : Network) (st : Storage)
    (request : Request) (failedRequest : FailedRequest)
    (denial : jsval) (e : Error) :
  isOAuth env = true →
  truthy skipAuthLogic = false →
  let c := createClient env endpoint skipAuthLogic in
  let sent := intercepted st request in
  net 0 (CallRequest c sent false) = Failed (HttpError 401 denial) →
  net 1 (refresh_post env st) = Failed e →
  run (refreshAuthLogic env failedRequest) (fun _ => net 1) st =
    {| trace := [(st, refresh_post env st)]; final := st; settled := Rejected e |} ∧
  run (send env c request) net st =
    {| trace := [(st, CallRequest c sent false); (st, refresh_post env st)];
       final := st; settled := Rejected e |} ∧
  posts (trace (run (send env c request) net st)) = [refresh_post env st] ∧
  (∀ key, final (run (send env c request) net st) !! key = st !! key).
Proof.
  intros Hmode Hskip c sent Hdenied Hfail.
  destruct (createClient_oauth env endpoint skipAuthLogic Hmode Hskip) as [Hhooks Hrefresh].
  pose proof (send_refresh_rejected env c Hhooks Hrefresh net st request denial Hdenied e Hfail)
    as Hsend.
  split.
  { destruct (refreshAuthLogic_exec env failedRequest (fun _ => net 1) st []) as [Htr Hout].
    cbn [length] in Hout. rewrite Hfail in Hout. destruct Hout as [Hfin Hset].
    unfold run. destruct (exec (refreshAuthLogic env failedRequest) (fun _ => net 1) st []).
    simpl in *. by subst. }
  split; [exact Hsend |].
  split; [by apply (send_one_refresh_post env c Hhooks Hrefresh net st request denial) |].
  intros key. by rewrite Hsend.
Qed.

Lemma refreshAuthLogic_failure_propagates_witness :
  settled (run (send env_oauth (createClient env_oauth JUndefined JUndefined) sample_request)
             net_refresh_down {["access_token" := "A1"; "refresh_token" := "R1"]})
    = Rejected (HttpError 400 (JStr "invalid_grant")) ∧
  final (run (send env_oauth (createClient env_oauth JUndefined JUndefined) sample_request)
           net_refresh_down {["access_token" := "A1"; "refresh_token" := "R1"]})
    = {["access_token" := "A1"; "refresh_token" := "R1"]}.
Proof.
  destruct (refreshAuthLogic_failure_propagates env_oauth JUndefined JUndefined
              net_refresh_down {["access_token" := "A1"; "refresh_token" := "R1"]}
              sample_request sample_failed JNull (HttpError 400 (JStr "invalid_grant")))
    as (_ & Hsend & _);
    [reflexivity | reflexivity | reflexivity | reflexivity |].
  rewrite Hsend. split; reflexivity.
Defined.

(** C10. In OAuth mode, with no [refresh_token] stored, an authorization
    failure still leads to the refresh POST, and its [refresh_token] field
    is the string [null]; the field is not left out and nothing is
    rejected before the POST leaves. *)
Theorem refreshAuthLogic_without_token
    (env : Env) (endpoint skipAuthLogic : jsval) (net : Network) (st : Storage)
    (request : Request) (failedRequest : FailedRequest) (denial : jsval) :
  isOAuth env = true →
  truthy skipAuthLogic = false →
  st !! "refresh_token" = None →
  let c := createClient env endpoint skipAuthLogic in
  let sent := intercepted st request in
  net 0 (CallRequest c sent false) = Failed (HttpError 401 denial) →
  ∃ form,
    let post := CallPost (tokenClient env) (JStr "") form refreshConfig in
    ("refresh_token", "null") ∈ form ∧
    (∀ v, ("refresh_token", v) ∈ form → v = "null") ∧
    trace (run (refreshAuthLogic env failedRequest) net st) = [(st, post)] ∧
    posts (trace (run (send env c request) net st)) = [post] ∧
    trace (run (send env c request) net st) !! 1 = Some (st, post).
Proof.
  intros Hmode Hskip Hnone c sent Hdenied.
  destruct (createClient_oauth env endpoint skipAuthLogic Hmode Hskip) as [Hhooks Hrefresh].
  destruct (refresh_form_fields env st) as (_ & _ & Htoken & _).
  rewrite Hnone in Htoken. simpl in Htoken.
  exists (refresh_form env st). cbv zeta. fold (refresh_post env st).
  split; [exact Htoken |]. split.
  { intros v. unfold refresh_form. rewrite Hnone. simpl.
    rewrite !elem_of_cons.
    intros [H | [H | [H | H]]]; try discriminate H; [by inversion H |].
    destruct (truthy (of_env (VUE_APP_CLIENT_SECRET env))).
    - rewrite elem_of_cons, elem_of_nil in H. destruct H as [H | []]. discriminate H.
    - by rewrite elem_of_nil in H. }
  split; [apply (refreshAuthLogic_exec env failedRequest net st []) |].
  split; [by apply (send_one_refresh_post env c Hhooks Hrefresh net st request denial) |].
  destruct (net 1 (refresh_post env st)) as [response | e] eqn:Hnet.
  - destruct (send_refresh_resolved env c Hhooks Hrefresh net st request denial Hdenied response Hnet)
      as [(e & _ & ->) | (access & _ & Hrun)]; [done |].
    cbv zeta in Hrun. by rewrite Hrun.
  - by rewrite (send_refresh_rejected env c Hhooks Hrefresh net st request denial Hdenied e Hnet).
Qed.

Lemma refreshAuthLogic_without_token_witness :
  ∃ form,
    trace (run (refreshAuthLogic env_oauth sample_failed) net_refresh_down ∅)
      = [(∅, CallPost (tokenClient env_oauth) (JStr "") form refreshConfig)] ∧
    ("refresh_token", "null") ∈ form.
Proof.
  destruct (refreshAuthLogic_without_token env_oauth JUndefined JUndefined
              net_refresh_down ∅ sample_request sample_failed JNull)
    as (form & Hnull & _ & Htrace & _);
    [reflexivity | reflexivity | reflexivity | reflexivity |].
  exists form. split; [exact Htrace | exact Hnull].
Defined.

(** ** Login *)

(** With a client id configured, the guard of line 130, which reads the
    length of the client id, is the truthiness of the secret. *)
Lemma and_length_client_id env :
  isOAuth env = true →
  and_length (of_env (VUE_APP_CLIENT_SECRET env)) (of_env (VUE_APP_CLIENT_ID env))
  = inr (truthy (of_env (VUE_APP_CLIENT_SECRET env))).
Proof.
  intros Hmode. apply truthy_of_env in Hmode as (cid & -> & Hne).
  unfold and_length.
  destruct (truthy (of_env (VUE_APP_CLIENT_SECRET env))); [| done].
  by apply length_truthy_JStr.
Qed.

(** Without a client id the same guard throws as soon as a secret is
    configured: the promise rejects before anything is stored or sent. *)
Lemma loginUserCredentials_without_client_id env username password net st secret :
  VUE_APP_CLIENT_ID env = None →
  VUE_APP_CLIENT_SECRET env = Some secret → secret ≠ "" →
  run (loginUserCredentials env username password) net st =
  {| trace := []; final := st; settled := Rejected TypeError |}.
Proof.
  intros Hid Hsecret Hne. unfold run, loginUserCredentials.
  rewrite Hid, Hsecret. unfold and_length. cbn [of_env truthy].
  by destruct (decide (secret = "")).
Qed.

Lemma loginUserCredentials_exec env username password net st tr :
  isOAuth env = true →
  let st0 := setItem st "access_token" JNull in
  let r := exec (loginUserCredentials env username password) net st tr in
  trace r = tr ++ [(st0, login_post env username password)] ∧
  match net (length tr) (login_post env username password) with
  | Failed e => final r = st0 ∧ settled r = Rejected e
  | Fulfilled response =>
      final r = login_stored st0 username (data response) ∧
      settled r =
        match get_prop (data response) "access_token" with
        | inr _ => Resolved response
        | inl e => Rejected e
        end
  end.
Proof.
  intros Hmode.
  unfold loginUserCredentials, login_post, login_form, login_stored.
  rewrite (and_length_client_id env Hmode), and_length_self. unfold append.
  destruct (truthy (of_env (VUE_APP_CLIENT_SECRET env)));
    destruct (truthy (of_env (VUE_APP_REDIRECT_URI env)));
    cbn -[get_prop];
    (destruct (net (length tr) _) as [response | e]; [| done]);
    (destruct (get_prop (data response) "access_token") as [e | access] eqn:Ha;
       [by rewrite (get_prop_total_together _ _ "refresh_token" _ Ha) |]);
    (destruct (get_prop (data response) "refresh_token") as [e | refresh] eqn:Hr;
       [by destruct (data response) |]);
    done.
Qed.

Lemma optional_field (o : option string) (name : string)
    (fixed : FormData) (s : string) :
  (∀ v, (name, v) ∉ fixed) →
  (name, s) ∈ fixed ++ (if truthy (of_env o) then [(name, to_string (of_env o))] else [])
  ↔ o = Some s ∧ s ≠ "".
Proof.
  intros Hfixed. rewrite elem_of_app. destruct o as [v |]; simpl.
  - destruct (decide (v = "")) as [-> | Hne].
    + rewrite elem_of_nil. split.
      * intros [H | []]. by apply Hfixed in H.
      * intros [[= <-] Hne]. done.
    + rewrite elem_of_cons, elem_of_nil. split.
      * intros [H | [[= ->] | []]]; [by apply Hfixed in H | done].
      * intros [[= <-] _]. tauto.
  - rewrite elem_of_nil. split.
    + intros [H | []]. by apply Hfixed in H.
    + intros [[=] _].
Qed.

Lemma login_form_fields env username password :
  ("grant_type", "password") ∈ login_form env username password ∧
  ("client_id", to_string (of_env (VUE_APP_CLIENT_ID env)))
    ∈ login_form env username password ∧
  ("username", username) ∈ login_form env username password ∧
  ("password", password) ∈ login_form env username password ∧
  (∀ s, ("client_secret", s) ∈ login_form env username password ↔
        VUE_APP_CLIENT_SECRET env = Some s ∧ s ≠ "") ∧
  (∀ s, ("redirect_uri", s) ∈ login_form env username password ↔
        VUE_APP_REDIRECT_URI env = Some s ∧ s ≠ "").
Proof.
  unfold login_form.
  do 4 (split; [rewrite elem_of_app, !elem_of_cons; tauto |]).
  split; intros s.
  - rewrite app_assoc, elem_of_app.
    rewrite (optional_field (VUE_APP_CLIENT_SECRET env) "client_secret").
    + split; [| tauto]. intros [H | H]; [done |]. exfalso.
      destruct (truthy (of_env (VUE_APP_REDIRECT_URI env)));
        [rewrite elem_of_cons, elem_of_nil in H; destruct H as [H | []]; discriminate H
        | by rewrite elem_of_nil in H].
    + intros v. rewrite !elem_of_cons, elem_of_nil.
      intros [H | [H | [H | [H | []]]]]; discriminate H.
  - rewrite app_assoc.
    apply (optional_field (VUE_APP_REDIRECT_URI env) "redirect_uri").
    intros v. rewrite elem_of_app, !elem_of_cons, elem_of_nil.
    intros [[H | [H | [H | [H | []]]]] | H]; try discriminate H.
    destruct (truthy (of_env (VUE_APP_CLIENT_SECRET env)));
      [rewrite elem_of_cons, elem_of_nil in H; destruct H as [H | []]; discriminate H
      | by rewrite elem_of_nil in H].
Qed.

(** What the login does in OAuth mode, the destination apart:
    [loginUserCredentials(username, password)] makes one
    call, a POST on the bare token client with the OAuth endpoint as path,
    whose form holds [grant_type=password], [client_id], [username],
    [password], [client_secret] exactly when the secret is configured and
    non-empty and [redirect_uri] exactly when the redirect URI is configured
    and non-empty; when the POST succeeds with string tokens the storage
    ends with these under [access_token] and [refresh_token] and with
    [username] equal to the argument, every other key as before, and the
    promise resolves with the response as received. *)
Theorem loginUserCredentials_oauth
    (env : Env) (username password : string) (net : Network) (st : Storage)
    (cid : string) :
  VUE_APP_CLIENT_ID env = Some cid → cid ≠ "" →
  let r := run (loginUserCredentials env username password) net st in
  ∃ form,
    let post := CallPost (tokenClient env) (oauthEndpoint env) form loginConfig in
    map snd (trace r) = [post] ∧
    request_hooks (tokenClient env) = [] ∧
    auth_refresh (tokenClient env) = None ∧
    baseURL (tokenClient env) = oauthEndpoint env ∧
    ("grant_type", "password") ∈ form ∧
    ("client_id", cid) ∈ form ∧
    ("username", username) ∈ form ∧
    ("password", password) ∈ form ∧
    (∀ s, ("client_secret", s) ∈ form ↔
          VUE_APP_CLIENT_SECRET env = Some s ∧ s ≠ "") ∧
    (∀ s, ("redirect_uri", s) ∈ form ↔
          VUE_APP_REDIRECT_URI env = Some s ∧ s ≠ "") ∧
    ∀ response access refresh,
      net 0 post = Fulfilled response →
      get_prop (data response) "access_token" = inr (JStr access) →
      get_prop (data response) "refresh_token" = inr (JStr refresh) →
      final r !! "access_token" = Some access ∧
      final r !! "refresh_token" = Some refresh ∧
      final r !! "username" = Some username ∧
      (∀ key, key ∉ ["access_token"; "refresh_token"; "username"] →
              final r !! key = st !! key) ∧
      settled r = Resolved response.
Proof.
  intros Hid Hne r.
  pose proof (isOAuth_client_id env cid Hid Hne) as Hmode.
  destruct (login_form_fields env username password)
    as (Hgrant & Hcid & Huser & Hpass & Hsecret & Hredirect).
  rewrite Hid in Hcid. simpl in Hcid.
  destruct (loginUserCredentials_exec env username password net st [] Hmode)
    as [Htr Hout]. fold (run (loginUserCredentials env username password) net st) in Htr, Hout.
  fold r in Htr, Hout. cbn [length app] in Htr, Hout.
  exists (login_form env username password). cbv zeta.
  fold (login_post env username password).
  split; [by rewrite Htr |].
  rewrite (tokenClient_oauth env Hmode) at 1 2 3. do 3 (split; [done |]).
  do 6 (split; [done |]).
  intros response access refresh Hok Haccess Hfresh.
  rewrite Hok, Haccess in Hout. destruct Hout as [Hfin Hset].
  unfold login_stored in Hfin. rewrite Haccess, Hfresh in Hfin.
  unfold setItem in Hfin. cbn [to_string] in Hfin. rewrite Hfin.
  split; [by rewrite 2!lookup_insert_ne, lookup_insert_eq by done |].
  split; [by rewrite lookup_insert_ne, lookup_insert_eq by done |].
  split; [by rewrite lookup_insert_eq |].
  split; [| done].
  intros key Hkey.
  rewrite !lookup_insert_ne; [done | | | |];
    intros <-; apply Hkey; rewrite !elem_of_cons; tauto.
Qed.

Lemma loginUserCredentials_oauth_witness :
  final (run (loginUserCredentials env_oauth "alice" "secret1") net_login_ok ∅)
    !! "username" = Some "alice" ∧
  final (run (loginUserCredentials env_oauth "alice" "secret1") net_login_ok ∅)
    !! "access_token" = Some "T1".
Proof.
  destruct (loginUserCredentials_oauth env_oauth "alice" "secret1" net_login_ok ∅ "7476498b")
    as (form & _ & _ & _ & _ & _ & _ & _ & _ & _ & _ & Hok);
    [reflexivity | discriminate |].
  destruct (Hok {| status := 200; data := token_body "T1" "R1" |} "T1" "R1")
    as (Haccess & _ & Huser & _); [reflexivity | reflexivity | reflexivity |].
  split; [exact Huser | exact Haccess].
Defined.

(** The path of the two token calls, for every configuration in OAuth
    mode: the token client is bound to the OAuth endpoint (the configured
    one when non-empty, [/oauth/token] otherwise), the refresh logic posts
    with the empty path, and the login posts with the endpoint once more
    as path. *)
Lemma token_calls_paths env username password failedRequest net st :
  isOAuth env = true →
  ∃ endpoint form form' st0,
    (∀ s, VUE_APP_OAUTH_ENDPOINT env = Some s → s ≠ "" → endpoint = s) ∧
    (VUE_APP_OAUTH_ENDPOINT env = None ∨ VUE_APP_OAUTH_ENDPOINT env = Some "" →
     endpoint = "/oauth/token") ∧
    endpoint ≠ "" ∧
    tokenClient env =
      {| baseURL := JStr endpoint; request_hooks := []; auth_refresh := None |} ∧
    trace (run (refreshAuthLogic env failedRequest) net st)
      = [(st, CallPost (tokenClient env) (JStr "") form refreshConfig)] ∧
    trace (run (loginUserCredentials env username password) net st)
      = [(st0, CallPost (tokenClient env) (JStr endpoint) form' loginConfig)].
Proof.
  intros Hmode.
  assert (∃ endpoint, oauthEndpoint env = JStr endpoint ∧ endpoint ≠ "" ∧
            (∀ s, VUE_APP_OAUTH_ENDPOINT env = Some s → s ≠ "" → endpoint = s) ∧
            (VUE_APP_OAUTH_ENDPOINT env = None ∨ VUE_APP_OAUTH_ENDPOINT env = Some "" →
             endpoint = "/oauth/token")) as (endpoint & Hend & Hne & Hconf & Hdef).
  { unfold oauthEndpoint, js_or. rewrite Hmode.
    destruct (VUE_APP_OAUTH_ENDPOINT env) as [s |]; simpl.
    - destruct (decide (s = "")) as [-> | Hs].
      + exists "/oauth/token". repeat split; try done. by intros s [= <-].
      + exists s. repeat split; try done.
        * by intros s' [= <-].
        * by intros [[=] | [= ->]].
    - exists "/oauth/token". repeat split; try done. }
  exists endpoint, (refresh_form env st), (login_form env username password),
    (setItem st "access_token" JNull).
  do 3 (split; [done |]).
  split; [by rewrite (tokenClient_oauth env Hmode), Hend |].
  split; [apply (refreshAuthLogic_exec env failedRequest net st []) |].
  destruct (loginUserCredentials_exec env username password net st [] Hmode)
    as [Htr _].
  unfold run. rewrite Htr. unfold login_post. by rewrite Hend.
Qed.

(** C4, on the code.  A login under the default OAuth configuration: the
    token client is bound to [/oauth/token], and the login hands
    [/oauth/token] to [post] once more as the request path, where the
    refresh logic, on the same client, hands the empty path.  The form,
    the stored entries and the resolution are as expected. *)
Theorem loginUserCredentials_endpoint_as_path :
  let r := run (loginUserCredentials env_oauth "alice" "secret1") net_login_ok ∅ in
  let r' := run (refreshAuthLogic env_oauth sample_failed) net_login_ok
              {["refresh_token" := "R0"]} in
  let bound : Client :=
    {| baseURL := JStr "/oauth/token"; request_hooks := []; auth_refresh := None |} in
  isOAuth env_oauth = true ∧
  VUE_APP_OAUTH_ENDPOINT env_oauth = None ∧
  tokenClient env_oauth = bound ∧
  map snd (trace r) =
    [CallPost bound (JStr "/oauth/token")
       [("grant_type", "password"); ("client_id", "7476498b");
        ("username", "alice"); ("password", "secret1");
        ("client_secret", "averysecretpassword")]
       loginConfig] ∧
  map snd (trace r') =
    [CallPost bound (JStr "")
       [("grant_type", "refresh_token"); ("client_id", "7476498b");
        ("refresh_token", "R0"); ("client_secret", "averysecretpassword")]
       refreshConfig] ∧
  settled r = Resolved {| status := 200; data := token_body "T1" "R1" |} ∧
  final r !! "access_token" = Some "T1" ∧
  final r !! "refresh_token" = Some "R1" ∧
  final r !! "username" = Some "alice".
Proof. vm_compute. repeat split. Qed.

(** What a failed login leaves, for every storage it starts from: the
    string [null] under [access_token], and every other key as it was. *)
Lemma loginUserCredentials_failed env username password net st e :
  isOAuth env = true →
  net 0 (login_post env username password) = Failed e →
  run (loginUserCredentials env username password) net st =
  {| trace := [(<["access_token" := "null"]> st, login_post env username password)];
     final := <["access_token" := "null"]> st;
     settled := Rejected e |}.
Proof.
  intros Hmode Hfail.
  destruct (loginUserCredentials_exec env username password net st [] Hmode)
    as [Htr Hout].
  cbn [length app] in Htr, Hout. rewrite Hfail in Hout. destruct Hout as [Hfin Hset].
  unfold run. destruct (exec (loginUserCredentials env username password) net st []).
  simpl in *. by subst.
Qed.

(** C3, on the code.  A login that fails, started from a storage holding
    the tokens of an earlier session: [setAccessToken(null)] goes through
    [localStorage.setItem], which stores the string [null]; the entry is
    present when the POST leaves and after the rejection, and the request
    interceptor then sends [Authorization: Bearer null].  The other entries
    are as they were. *)
Theorem loginUserCredentials_failed_keeps_token_entry :
  let st : Storage :=
    {["access_token" := "A1"; "refresh_token" := "R1"; "username" := "alice"]} in
  let r := run (loginUserCredentials env_oauth "alice" "wrong") net_down st in
  settled r = Rejected NetworkError ∧
  map (fun entry => getItem (fst entry) "access_token") (trace r) = [Some "null"] ∧
  getItem (final r) "access_token" = Some "null" ∧
  getItem (final r) "refresh_token" = Some "R1" ∧
  getItem (final r) "username" = Some "alice" ∧
  headers (intercepted (final r) sample_request) !! "Authorization"
    = Some (JStr "Bearer null") ∧
  final (run logoutUser net_down st) !! "access_token" = None.
Proof. vm_compute. repeat split. Qed.

(** ** What the flows leave alone *)

Lemma refreshAuthLogic_writes_spare env failedRequest key :
  key ≠ "access_token" → key ≠ "refresh_token" →
  writes_spare key (refreshAuthLogic env failedRequest).
Proof.
  intros Ha Hr. unfold refreshAuthLogic. cbn [writes_spare]. intros stored.
  apply writes_spare_bind; [apply writes_spare_lift |]. intros withSecret.
  cbn [writes_spare]. intros [response | e]; [| done].
  apply writes_spare_bind; [apply writes_spare_lift |]. intros access.
  apply writes_spare_bind; [by split |]. intros _.
  apply writes_spare_bind; [apply writes_spare_lift |]. intros refresh.
  by split.
Qed.

Lemma loginUserCredentials_writes_spare env username password key :
  key ≠ "access_token" → key ≠ "refresh_token" → key ≠ "username" →
  writes_spare key (loginUserCredentials env username password).
Proof.
  intros Ha Hr Hu. unfold loginUserCredentials.
  apply writes_spare_bind; [apply writes_spare_lift |]. intros withSecret.
  apply writes_spare_bind; [apply writes_spare_lift |]. intros withRedirect.
  apply writes_spare_bind; [by split |]. intros _.
  cbn [writes_spare]. intros [response | e]; [| done].
  apply writes_spare_bind; [apply writes_spare_lift |]. intros access.
  apply writes_spare_bind; [by split |]. intros _.
  apply writes_spare_bind; [apply writes_spare_lift |]. intros refresh.
  by repeat split.
Qed.

Lemma logoutUser_writes_spare key :
  key ≠ "access_token" → key ≠ "refresh_token" → key ≠ "username" →
  writes_spare key logoutUser.
Proof. intros Ha Hr Hu. unfold logoutUser. by repeat split. Qed.

Lemma requestInterceptor_writes_spare request key :
  writes_spare key (requestInterceptor request).
Proof.
  unfold requestInterceptor, getAccessToken. cbn [bind writes_spare].
  intros accessToken. destruct (truthy (of_item accessToken)); [done |].
  cbn [writes_spare]. intros csrfToken. by destruct (truthy (of_item csrfToken)).
Qed.

Lemma apply_request_hooks_writes_spare hooks request key :
  writes_spare key (apply_request_hooks hooks request).
Proof.
  revert request. induction hooks as [| [] rest IH]; intros request; [done |].
  cbn [apply_request_hooks run_request_hook].
  apply writes_spare_bind; [apply requestInterceptor_writes_spare | apply IH].
Qed.

Lemma send_writes_spare env c request key :
  key ≠ "access_token" → key ≠ "refresh_token" →
  writes_spare key (send env c request).
Proof.
  intros Ha Hr. unfold send.
  apply writes_spare_bind; [apply apply_request_hooks_writes_spare |]. intros sent.
  cbn [writes_spare]. intros [response | e]; [done |].
  destruct (auth_refresh c) as [[] |]; [| done].
  destruct (is401 e); [| done].
  apply writes_spare_bind; [by apply refreshAuthLogic_writes_spare |]. intros _.
  apply writes_spare_bind; [apply apply_request_hooks_writes_spare |]. intros again.
  cbn [writes_spare]. by intros [response | e'].
Qed.

(** C9. Login, the refresh logic (alone, and as triggered by a failed
    request through any client) and logout never write [csrfToken]: none
    of their [setItem] / [removeItem] names that key, and whatever the
    network answers the stored [csrfToken] at the end is the one at the
    start. *)
Theorem csrfToken_untouched
    (env : Env) (username password : string) (failedRequest : FailedRequest)
    (c : Client) (request : Request) (net : Network) (st : Storage) :
  (writes_spare "csrfToken" (loginUserCredentials env username password) ∧
   final (run (loginUserCredentials env username password) net st) !! "csrfToken"
     = st !! "csrfToken") ∧
  (writes_spare "csrfToken" (refreshAuthLogic env failedRequest) ∧
   final (run (refreshAuthLogic env failedRequest) net st) !! "csrfToken"
     = st !! "csrfToken") ∧
  (writes_spare "csrfToken" (send env c request) ∧
   final (run (send env c request) net st) !! "csrfToken" = st !! "csrfToken") ∧
  (writes_spare "csrfToken" logoutUser ∧
   final (run logoutUser net st) !! "csrfToken" = st !! "csrfToken").
Proof.
  assert (writes_spare "csrfToken" (loginUserCredentials env username password)) as Hlogin
    by by apply loginUserCredentials_writes_spare.
  assert (writes_spare "csrfToken" (refreshAuthLogic env failedRequest)) as Hrefresh
    by by apply refreshAuthLogic_writes_spare.
  assert (writes_spare "csrfToken" (send env c request)) as Hsend
    by by apply send_writes_spare.
  assert (writes_spare "csrfToken" logoutUser) as Hlogout
    by by apply logoutUser_writes_spare.
  unfold run. repeat split; try done; by apply exec_writes_spare.
Qed.

(** ** Further behaviour of the module *)

Lemma run_ext {A : Type} (r : Run A) tr st s :
  trace r = tr → final r = st → settled r = s →
  r = {| trace := tr; final := st; settled := s |}.
Proof. destruct r. simpl. by intros -> -> ->. Qed.

Lemma assoc_missing name fields :
  (∀ v, (name, v) ∉ fields) → assoc name fields = JUndefined.
Proof.
  induction fields as [| [k v] rest IH]; intros Hmiss; [done |].
  simpl. destruct (decide (k = name)) as [-> | Hne].
  - exfalso. apply (Hmiss v). apply elem_of_cons. by left.
  - apply IH. intros w Hw. apply (Hmiss w). apply elem_of_cons. by right.
Qed.

Lemma get_prop_absent body name :
  body = JUndefined ∨ body = JNull → get_prop body name = inl TypeError.
Proof. by intros [-> | ->]. Qed.

Lemma intercepted_null_entry st request :
  intercepted (<["access_token" := "null"]> st) request
  = set_header request "Authorization" (JStr "Bearer null").
Proof.
  rewrite (intercepted_access _ request "null"); [done | | done].
  apply lookup_insert_eq.
Qed.

(** X1. While the login POST is in flight the [access_token] entry is the
    string [null], whatever was stored before, and a request intercepted
    at that moment, or after the POST has failed, is sent with
    [Authorization: Bearer null], whatever [csrfToken] holds. *)
Theorem loginUserCredentials_null_entry
    (env : Env) (username password : string) (net : Network) (st : Storage)
    (request : Request) :
  isOAuth env = true →
  let st0 : Storage := <["access_token" := "null"]> st in
  let r := run (loginUserCredentials env username password) net st in
  trace r = [(st0, login_post env username password)] ∧
  intercepted st0 request = set_header request "Authorization" (JStr "Bearer null") ∧
  (∀ e, net 0 (login_post env username password) = Failed e →
        final r = st0 ∧ settled r = Rejected e ∧
        ∀ key, key ≠ "access_token" → final r !! key = st !! key).
Proof.
  intros Hmode st0 r.
  destruct (loginUserCredentials_exec env username password net st [] Hmode)
    as [Htr Hout].
  split; [exact Htr |]. split; [apply intercepted_null_entry |].
  intros e Hfail. cbn [length] in Hout. rewrite Hfail in Hout.
  destruct Hout as [Hfin Hset]. do 2 (split; [done |]).
  intros key Hkey. subst r. unfold run. rewrite Hfin.
  unfold setItem. by rewrite lookup_insert_ne.
Qed.

Lemma loginUserCredentials_null_entry_witness :
  headers (intercepted
             (final (run (loginUserCredentials env_oauth "alice" "wrong") net_down
                       {["access_token" := "A1"; "csrfToken" := "tok123"]}))
             sample_request) !! "Authorization" = Some (JStr "Bearer null").
Proof.
  destruct (loginUserCredentials_null_entry env_oauth "alice" "wrong" net_down
              {["access_token" := "A1"; "csrfToken" := "tok123"]} sample_request eq_refl)
    as (_ & Hsent & Hfail).
  destruct (Hfail NetworkError eq_refl) as (Hfin & _).
  rewrite Hfin, Hsent. reflexivity.
Defined.

(** X2. With a secret configured but no client id, line 130 reads the length
    of [undefined]: the login promise rejects with a [TypeError], and
    nothing has been stored or sent. *)
Theorem loginUserCredentials_throws_on_guard
    (env : Env) (username password : string) (net : Network) (st : Storage)
    (secret : string) :
  VUE_APP_CLIENT_ID env = None →
  VUE_APP_CLIENT_SECRET env = Some secret → secret ≠ "" →
  let r := run (loginUserCredentials env username password) net st in
  trace r = [] ∧ final r = st ∧ settled r = Rejected TypeError.
Proof.
  intros Hid Hsecret Hne r. subst r.
  by rewrite (loginUserCredentials_without_client_id env username password net st secret).
Qed.

Lemma loginUserCredentials_throws_on_guard_witness :
  settled (run (loginUserCredentials
                  {| VUE_APP_CLIENT_ID := None;
                     VUE_APP_CLIENT_SECRET := Some "averysecretpassword";
                     VUE_APP_OAUTH_ENDPOINT := None;
                     VUE_APP_REDIRECT_URI := None;
                     VUE_APP_CSRF_TOKEN_ENDPOINT := None |} "alice" "secret1")
             net_login_ok ∅)
  = Rejected TypeError.
Proof.
  apply (loginUserCredentials_throws_on_guard
           {| VUE_APP_CLIENT_ID := None;
              VUE_APP_CLIENT_SECRET := Some "averysecretpassword";
              VUE_APP_OAUTH_ENDPOINT := None;
              VUE_APP_REDIRECT_URI := None;
              VUE_APP_CSRF_TOKEN_ENDPOINT := None |} "alice" "secret1" net_login_ok ∅
           "averysecretpassword"); [reflexivity | reflexivity | discriminate].
Defined.

(** X3. Outside OAuth mode, when the guard of line 130 does not throw (no
    usable secret, or an empty client id), the login still goes out: the
    [access_token] entry becomes the string [null] and the user name and
    password are POSTed, without [client_secret], on the module's token
    client, which in this mode is bound to the CSRF endpoint, with [null]
    as path. *)
Theorem loginUserCredentials_csrf_mode
    (env : Env) (username password : string) (net : Network) (st : Storage) :
  isOAuth env = false →
  truthy (of_env (VUE_APP_CLIENT_SECRET env)) = false ∨ VUE_APP_CLIENT_ID env = Some "" →
  let r := run (loginUserCredentials env username password) net st in
  ∃ form,
    trace r = [(<["access_token" := "null"]> st,
                CallPost (tokenClient env) JNull form loginConfig)] ∧
    tokenClient env =
      {| baseURL := csrfEndpoint env; request_hooks := []; auth_refresh := None |} ∧
    ("grant_type", "password") ∈ form ∧
    ("client_id", to_string (of_env (VUE_APP_CLIENT_ID env))) ∈ form ∧
    ("username", username) ∈ form ∧
    ("password", password) ∈ form ∧
    (∀ s, ("client_secret", s) ∉ form).
Proof.
  intros Hmode Hguard r.
  assert (and_length (of_env (VUE_APP_CLIENT_SECRET env)) (of_env (VUE_APP_CLIENT_ID env))
          = inr false) as Hand.
  { unfold and_length. destruct Hguard as [-> | ->]; [done |].
    by destruct (truthy _). }
  exists ([("grant_type", "password");
           ("client_id", to_string (of_env (VUE_APP_CLIENT_ID env)));
           ("username", username); ("password", password)]
          ++ (if truthy (of_env (VUE_APP_REDIRECT_URI env))
              then [("redirect_uri", to_string (of_env (VUE_APP_REDIRECT_URI env)))]
              else [])).
  split.
  { subst r. unfold run, loginUserCredentials, oauthEndpoint.
    rewrite Hand, and_length_self, Hmode. unfold append.
    destruct (truthy (of_env (VUE_APP_REDIRECT_URI env))); cbn -[get_prop];
      (destruct (net 0 _) as [response | e]; [| done]);
      (destruct (get_prop (data response) "access_token") as [e | access] eqn:Ha;
         [done |]);
      (destruct (get_prop (data response) "refresh_token") as [e | refresh] eqn:Hr;
         done). }
  split; [unfold tokenClient; by rewrite Hmode |].
  do 4 (split; [rewrite elem_of_app, !elem_of_cons; tauto |]).
  intros s. rewrite elem_of_app, !elem_of_cons, elem_of_nil.
  intros [[H | [H | [H | [H | []]]]] | H]; try discriminate H.
  destruct (truthy (of_env (VUE_APP_REDIRECT_URI env)));
    [rewrite elem_of_cons, elem_of_nil in H; destruct H as [H | []]; discriminate H
    | by rewrite elem_of_nil in H].
Qed.

Lemma loginUserCredentials_csrf_mode_witness :
  ∃ form,
    trace (run (loginUserCredentials env_csrf "alice" "secret1") net_down ∅)
    = [(<["access_token" := "null"]> ∅,
        CallPost (tokenClient env_csrf) JNull form loginConfig)] ∧
    ("client_id", "undefined") ∈ form ∧ ("password", "secret1") ∈ form.
Proof.
  destruct (loginUserCredentials_csrf_mode env_csrf "alice" "secret1" net_down ∅)
    as (form & Htr & _ & _ & Hid & _ & Hpass & _);
    [reflexivity | left; reflexivity |].
  exists form. split; [exact Htr |]. split; [exact Hid | exact Hpass].
Defined.

(** X4. A login answered with success but without a body ([data] undefined or
    null): the property read of line 145 throws, the promise rejects with
    a [TypeError] through the [catch], and the storage is left with the
    string [null] under [access_token] and nothing else changed. *)
Theorem loginUserCredentials_bodyless_response
    (env : Env) (username password : string) (net : Network) (st : Storage)
    (response : Response) :
  isOAuth env = true →
  net 0 (login_post env username password) = Fulfilled response →
  data response = JUndefined ∨ data response = JNull →
  run (loginUserCredentials env username password) net st =
  {| trace := [(<["access_token" := "null"]> st, login_post env username password)];
     final := <["access_token" := "null"]> st;
     settled := Rejected TypeError |}.
Proof.
  intros Hmode Hok Hbody.
  destruct (loginUserCredentials_exec env username password net st [] Hmode)
    as [Htr Hout].
  cbn [length] in Hout. rewrite Hok in Hout. unfold login_stored in Hout.
  rewrite (get_prop_absent _ "access_token" Hbody) in Hout.
  destruct Hout as [Hfin Hset]. by apply run_ext.
Qed.

Lemma loginUserCredentials_bodyless_response_witness :
  settled (run (loginUserCredentials env_oauth "alice" "secret1")
             (fun _ _ => Fulfilled {| status := 204; data := JUndefined |})
             {["refresh_token" := "R0"]})
  = Rejected TypeError.
Proof.
  rewrite (loginUserCredentials_bodyless_response env_oauth "alice" "secret1"
             (fun _ _ => Fulfilled {| status := 204; data := JUndefined |})
             {["refresh_token" := "R0"]} {| status := 204; data := JUndefined |});
    [reflexivity | reflexivity | reflexivity | left; reflexivity].
Defined.

(** X5. A login answered with an object: each token entry receives the string
    coercion of the field, so a field the body does not have is stored as
    the string [undefined]; the promise resolves all the same. *)
Theorem loginUserCredentials_stores_coerced
    (env : Env) (username password : string) (net : Network) (st : Storage)
    (response : Response) (fields : list (string * jsval)) :
  isOAuth env = true →
  net 0 (login_post env username password) = Fulfilled response →
  data response = JObj fields →
  let r := run (loginUserCredentials env username password) net st in
  settled r = Resolved response ∧
  final r !! "access_token" = Some (to_string (assoc "access_token" fields)) ∧
  final r !! "refresh_token" = Some (to_string (assoc "refresh_token" fields)) ∧
  final r !! "username" = Some username ∧
  ((∀ v, ("access_token", v) ∉ fields) →
     final r !! "access_token" = Some "undefined" ∧
     ∀ request, intercepted (final r) request
                = set_header request "Authorization" (JStr "Bearer undefined")).
Proof.
  intros Hmode Hok Hbody r.
  destruct (loginUserCredentials_exec env username password net st [] Hmode)
    as [Htr Hout].
  cbn [length] in Hout. rewrite Hok in Hout. unfold login_stored in Hout.
  rewrite Hbody in Hout. cbn [get_prop] in Hout. destruct Hout as [Hfin Hset].
  fold (run (loginUserCredentials env username password) net st) in Hfin, Hset.
  fold r in Hfin, Hset. unfold setItem in Hfin. cbn [to_string] in Hfin.
  assert (final r !! "access_token" = Some (to_string (assoc "access_token" fields)))
    as Haccess.
  { rewrite Hfin. by rewrite 2!lookup_insert_ne, lookup_insert_eq by done. }
  split; [done |]. split; [done |].
  split; [rewrite Hfin; by rewrite lookup_insert_ne, lookup_insert_eq by done |].
  split; [rewrite Hfin; by rewrite lookup_insert_eq |].
  intros Hmiss. rewrite (assoc_missing _ _ Hmiss) in Haccess. split; [done |].
  intros request. by rewrite (intercepted_access _ request "undefined").
Qed.

Lemma loginUserCredentials_stores_coerced_witness :
  final (run (loginUserCredentials env_oauth "alice" "secret1")
           (fun _ _ => Fulfilled {| status := 200; data := JObj [("error", JStr "x")] |}) ∅)
    !! "access_token" = Some "undefined".
Proof.
  destruct (loginUserCredentials_stores_coerced env_oauth "alice" "secret1"
              (fun _ _ => Fulfilled {| status := 200; data := JObj [("error", JStr "x")] |}) ∅
              {| status := 200; data := JObj [("error", JStr "x")] |} [("error", JStr "x")])
    as (_ & _ & _ & _ & Hmiss); [reflexivity | reflexivity | reflexivity |].
  apply Hmiss. intros v Hin. rewrite elem_of_cons, elem_of_nil in Hin.
  destruct Hin as [Hin | []]. discriminate Hin.
Defined.

(** X6. A refresh answered with an object that has no [refresh_token] field
    (only a new access token): the stored refresh token is overwritten
    with the string [undefined], and that string is what the next refresh
    sends. *)
Theorem refreshAuthLogic_loses_refresh_token
    (env : Env) (failedRequest : FailedRequest) (net : Network) (st : Storage)
    (response : Response) (fields : list (string * jsval)) :
  net 0 (refresh_post env st) = Fulfilled response →
  data response = JObj fields →
  (∀ v, ("refresh_token", v) ∉ fields) →
  let r := run (refreshAuthLogic env failedRequest) net st in
  settled r = Resolved failedRequest ∧
  final r !! "access_token" = Some (to_string (assoc "access_token" fields)) ∧
  final r !! "refresh_token" = Some "undefined" ∧
  ∀ net' failedRequest',
    ∃ form,
      trace (run (refreshAuthLogic env failedRequest') net' (final r))
      = [(final r, CallPost (tokenClient env) (JStr "") form refreshConfig)] ∧
      ("refresh_token", "undefined") ∈ form.
Proof.
  intros Hok Hbody Hmiss r.
  destruct (refreshAuthLogic_exec env failedRequest net st []) as [Htr Hout].
  cbn [length] in Hout. rewrite Hok in Hout. unfold tokens_stored in Hout.
  rewrite Hbody in Hout. cbn [get_prop] in Hout. destruct Hout as [Hfin Hset].
  fold (run (refreshAuthLogic env failedRequest) net st) in Hfin, Hset.
  fold r in Hfin, Hset. unfold setItem in Hfin.
  rewrite (assoc_missing _ _ Hmiss) in Hfin. cbn [to_string] in Hfin.
  assert (final r !! "refresh_token" = Some "undefined") as Hlost
    by (rewrite Hfin; by rewrite lookup_insert_eq).
  split; [done |].
  split; [rewrite Hfin; by rewrite lookup_insert_ne, lookup_insert_eq by done |].
  split; [done |].
  intros net' failedRequest'. exists (refresh_form env (final r)).
  split; [apply (refreshAuthLogic_exec env failedRequest' net' (final r) []) |].
  destruct (refresh_form_fields env (final r)) as (_ & _ & Htoken & _).
  by rewrite Hlost in Htoken.
Qed.

Lemma refreshAuthLogic_loses_refresh_token_witness :
  final (run (refreshAuthLogic env_oauth sample_failed)
           (fun _ _ => Fulfilled {| status := 200; data := JObj [("access_token", JStr "A2")] |})
           {["access_token" := "A1"; "refresh_token" := "R1"]})
    !! "refresh_token" = Some "undefined".
Proof.
  destruct (refreshAuthLogic_loses_refresh_token env_oauth sample_failed
              (fun _ _ => Fulfilled {| status := 200; data := JObj [("access_token", JStr "A2")] |})
              {["access_token" := "A1"; "refresh_token" := "R1"]}
              {| status := 200; data := JObj [("access_token", JStr "A2")] |}
              [("access_token", JStr "A2")])
    as (_ & _ & Hlost & _); [reflexivity | reflexivity | | exact Hlost].
  intros v Hin. rewrite elem_of_cons, elem_of_nil in Hin.
  destruct Hin as [Hin | []]. discriminate Hin.
Defined.

(** X7. A refresh answered with success but without a body: the property read
    of line 73 throws inside the [then] callback, the promise of the
    refresh logic rejects with a [TypeError] and the storage is untouched. *)
Theorem refreshAuthLogic_bodyless_response
    (env : Env) (failedRequest : FailedRequest) (net : Network) (st : Storage)
    (response : Response) :
  net 0 (refresh_post env st) = Fulfilled response →
  data response = JUndefined ∨ data response = JNull →
  run (refreshAuthLogic env failedRequest) net st =
  {| trace := [(st, refresh_post env st)]; final := st; settled := Rejected TypeError |}.
Proof.
  intros Hok Hbody.
  destruct (refreshAuthLogic_exec env failedRequest net st []) as [Htr Hout].
  cbn [length] in Hout. rewrite Hok in Hout. unfold tokens_stored in Hout.
  rewrite (get_prop_absent _ "access_token" Hbody) in Hout.
  destruct Hout as [Hfin Hset]. by apply run_ext.
Qed.

Lemma refreshAuthLogic_bodyless_response_witness :
  final (run (refreshAuthLogic env_oauth sample_failed)
           (fun _ _ => Fulfilled {| status := 200; data := JNull |})
           {["access_token" := "A1"; "refresh_token" := "R1"]})
  = {["access_token" := "A1"; "refresh_token" := "R1"]}.
Proof.
  rewrite (refreshAuthLogic_bodyless_response env_oauth sample_failed
             (fun _ _ => Fulfilled {| status := 200; data := JNull |})
             {["access_token" := "A1"; "refresh_token" := "R1"]}
             {| status := 200; data := JNull |});
    [reflexivity | reflexivity | right; reflexivity].
Defined.

(** ** How the operations compose *)

Lemma intercepted_cases st request :
  intercepted st request =
  if truthy (of_item (st !! "access_token"))
  then set_header request "Authorization"
         (JStr ("Bearer " +:+ to_string (of_item (st !! "access_token"))))
  else if truthy (of_item (st !! "csrfToken"))
       then set_header request "X-CSRF-Token" (of_item (st !! "csrfToken"))
       else request.
Proof.
  unfold intercepted, run, requestInterceptor, getAccessToken. simpl. unfold getItem.
  destruct (truthy (of_item (st !! "access_token"))); [done |]. simpl.
  unfold getItem. by destruct (truthy (of_item (st !! "csrfToken"))).
Qed.

(** X8. The token a successful login stores is the one the interceptor sends:
    afterwards every request gets [Authorization: Bearer <access_token>]
    with the token of the response (taken non-empty), whatever the storage
    held before. *)
Theorem loginUserCredentials_then_intercepted
    (env : Env) (username password : string) (net : Network) (st : Storage)
    (response : Response) (access refresh : string) (request : Request) :
  isOAuth env = true →
  net 0 (login_post env username password) = Fulfilled response →
  get_prop (data response) "access_token" = inr (JStr access) →
  get_prop (data response) "refresh_token" = inr (JStr refresh) →
  access ≠ "" →
  intercepted (final (run (loginUserCredentials env username password) net st)) request
  = set_header request "Authorization" (JStr ("Bearer " +:+ access)).
Proof.
  intros Hmode Hok Haccess Hfresh Hne.
  destruct (loginUserCredentials_exec env username password net st [] Hmode)
    as [_ Hout].
  cbn [length] in Hout. rewrite Hok in Hout. unfold login_stored in Hout.
  rewrite Haccess, Hfresh in Hout. destruct Hout as [Hfin _].
  unfold run. rewrite Hfin. apply intercepted_access; [| done].
  unfold setItem. by rewrite 2!lookup_insert_ne, lookup_insert_eq by done.
Qed.

Lemma loginUserCredentials_then_intercepted_witness :
  headers (intercepted
             (final (run (loginUserCredentials env_oauth "alice" "secret1") net_login_ok
                       {["csrfToken" := "tok123"]}))
             sample_request) !! "Authorization" = Some (JStr "Bearer T1").
Proof.
  rewrite (loginUserCredentials_then_intercepted env_oauth "alice" "secret1" net_login_ok
             {["csrfToken" := "tok123"]}
             {| status := 200; data := token_body "T1" "R1" |} "T1" "R1" sample_request);
    [reflexivity | reflexivity | reflexivity | reflexivity | reflexivity | discriminate].
Defined.

(** X9. The tokens a successful refresh stores are the ones used next: the
    interceptor sends the new access token, and a later refresh posts the
    new refresh token. *)
Theorem refreshAuthLogic_then_used
    (env : Env) (failedRequest failedRequest' : FailedRequest)
    (net net' : Network) (st : Storage)
    (response : Response) (access refresh : string) (request : Request) :
  net 0 (refresh_post env st) = Fulfilled response →
  get_prop (data response) "access_token" = inr (JStr access) →
  get_prop (data response) "refresh_token" = inr (JStr refresh) →
  access ≠ "" →
  let st' := final (run (refreshAuthLogic env failedRequest) net st) in
  intercepted st' request
  = set_header request "Authorization" (JStr ("Bearer " +:+ access)) ∧
  ∃ form,
    trace (run (refreshAuthLogic env failedRequest') net' st')
    = [(st', CallPost (tokenClient env) (JStr "") form refreshConfig)] ∧
    ("refresh_token", refresh) ∈ form ∧
    (∀ v, ("refresh_token", v) ∈ form → v = refresh).
Proof.
  intros Hok Haccess Hfresh Hne st'.
  destruct (refreshAuthLogic_exec env failedRequest net st []) as [_ Hout].
  cbn [length] in Hout. rewrite Hok in Hout. unfold tokens_stored in Hout.
  rewrite Haccess, Hfresh in Hout. destruct Hout as [Hfin _].
  fold (run (refreshAuthLogic env failedRequest) net st) in Hfin. fold st' in Hfin.
  unfold setItem in Hfin. cbn [to_string] in Hfin.
  assert (st' !! "refresh_token" = Some refresh) as Hstored
    by (rewrite Hfin; by rewrite lookup_insert_eq).
  split.
  { apply intercepted_access; [| done].
    rewrite Hfin. by rewrite lookup_insert_ne, lookup_insert_eq by done. }
  exists (refresh_form env st').
  split; [apply (refreshAuthLogic_exec env failedRequest' net' st' []) |].
  destruct (refresh_form_fields env st') as (_ & _ & Htoken & _).
  rewrite Hstored in Htoken. split; [done |].
  intros v. unfold refresh_form. rewrite Hstored. simpl.
  rewrite !elem_of_cons.
  intros [H | [H | [H | H]]]; try discriminate H; [by inversion H |].
  destruct (truthy (of_env (VUE_APP_CLIENT_SECRET env))).
  - rewrite elem_of_cons, elem_of_nil in H. destruct H as [H | []]. discriminate H.
  - by rewrite elem_of_nil in H.
Qed.

Lemma refreshAuthLogic_then_used_witness :
  headers (intercepted
             (final (run (refreshAuthLogic env_oauth sample_failed) net_login_ok
                       {["access_token" := "A1"; "refresh_token" := "R0"]}))
             sample_request) !! "Authorization" = Some (JStr "Bearer T1").
Proof.
  destruct (refreshAuthLogic_then_used env_oauth sample_failed sample_failed
              net_login_ok net_down {["access_token" := "A1"; "refresh_token" := "R0"]}
              {| status := 200; data := token_body "T1" "R1" |} "T1" "R1" sample_request)
    as [Hsent _];
    [reflexivity | reflexivity | reflexivity | discriminate |].
  rewrite Hsent. reflexivity.
Defined.

Lemma logoutUser_final net st :
  final (run logoutUser net st)
  = delete "username" (delete "refresh_token" (delete "access_token" st)).
Proof. reflexivity. Qed.

(** X10. After [logoutUser] the interceptor never sets [Authorization]: a
    request gets the CSRF header when a non-empty [csrfToken] is stored,
    and is returned as it came otherwise. *)
Theorem logoutUser_then_intercepted
    (net : Network) (st : Storage) (request : Request) :
  let st' := final (run logoutUser net st) in
  headers (intercepted st' request) !! "Authorization"
    = headers request !! "Authorization" ∧
  (∀ t, st !! "csrfToken" = Some t → t ≠ "" →
        intercepted st' request = set_header request "X-CSRF-Token" (JStr t)) ∧
  (unusable st "csrfToken" → intercepted st' request = request).
Proof.
  intros st'.
  assert (unusable st' "access_token") as Hgone.
  { left. subst st'. rewrite logoutUser_final.
    by rewrite 2!lookup_delete_ne, lookup_delete_eq by done. }
  assert (st' !! "csrfToken" = st !! "csrfToken") as Hcsrf.
  { apply (exec_writes_spare net "csrfToken" logoutUser st []).
    by apply logoutUser_writes_spare. }
  split; [| split].
  - pose proof (unusable_falsy _ _ Hgone) as Hfalsy. unfold getItem in Hfalsy.
    rewrite intercepted_cases, Hfalsy.
    destruct (truthy (of_item (st' !! "csrfToken"))); [| done].
    simpl. by rewrite lookup_insert_ne.
  - intros t Ht Hne. apply intercepted_csrf; [done | by rewrite Hcsrf | done].
  - intros Hnone. apply intercepted_none; [done |].
    unfold unusable. by rewrite Hcsrf.
Qed.

Lemma logoutUser_then_intercepted_witness :
  intercepted (final (run logoutUser net_down
                        {["access_token" := "T1"; "csrfToken" := "tok123"]}))
    sample_request
  = set_header sample_request "X-CSRF-Token" (JStr "tok123").
Proof.
  destruct (logoutUser_then_intercepted net_down
              {["access_token" := "T1"; "csrfToken" := "tok123"]} sample_request)
    as (_ & Hcsrf & _).
  apply (Hcsrf "tok123"); [reflexivity | discriminate].
Defined.

Lemma logoutUser_absorbs {A : Type} (p : Prog A) net net' st :
  (∀ key, key ≠ "access_token" → key ≠ "refresh_token" → key ≠ "username" →
          writes_spare key p) →
  final (run logoutUser net' (final (run p net st))) = final (run logoutUser net' st).
Proof.
  intros Hp. rewrite !logoutUser_final. apply map_eq. intros key.
  rewrite !lookup_delete. repeat case_decide; try done.
  apply (exec_writes_spare net key p st []). by apply Hp.
Qed.

(** X11. [logoutUser] undoes everything the other flows write: run after a
    login, after the refresh logic or after a request through any client,
    whatever the network answered, it leaves the storage that a logout
    alone would have left. *)
Theorem logoutUser_after_flows
    (env : Env) (username password : string) (failedRequest : FailedRequest)
    (c : Client) (request : Request) (net net' : Network) (st : Storage) :
  final (run logoutUser net'
           (final (run (loginUserCredentials env username password) net st)))
    = final (run logoutUser net' st) ∧
  final (run logoutUser net' (final (run (refreshAuthLogic env failedRequest) net st)))
    = final (run logoutUser net' st) ∧
  final (run logoutUser net' (final (run (send env c request) net st)))
    = final (run logoutUser net' st).
Proof.
  split; [| split]; apply logoutUser_absorbs; intros key Ha Hr Hu.
  - by apply loginUserCredentials_writes_spare.
  - by apply refreshAuthLogic_writes_spare.
  - by apply send_writes_spare.
Qed.

(** X12. Running the interceptor on a request it has already handled changes
    nothing: under the same storage it is idempotent. *)
Theorem requestInterceptor_idempotent
    (net : Network) (st : Storage) (request : Request) :
  intercepted st (intercepted st request) = intercepted st request ∧
  run (requestInterceptor (intercepted st request)) net st =
    {| trace := []; final := st; settled := Resolved (intercepted st request) |}.
Proof.
  assert (intercepted st (intercepted st request) = intercepted st request) as Hidem.
  { rewrite (intercepted_cases st (intercepted st request)).
    rewrite (intercepted_cases st request).
    destruct (truthy (of_item (st !! "access_token"))).
    - unfold set_header. simpl. by rewrite insert_insert_eq.
    - destruct (truthy (of_item (st !! "csrfToken"))); [| done].
      unfold set_header. simpl. by rewrite insert_insert_eq. }
  split; [done |]. unfold run. by rewrite requestInterceptor_exec, Hidem.
Qed.

(** X13. The interceptor keeps the method and the URL, touches at most one of
    the two headers [Authorization] and [X-CSRF-Token], and no other
    header. *)
Theorem requestInterceptor_one_header (st : Storage) (request : Request) :
  let sent := intercepted st request in
  method sent = method request ∧
  url sent = url request ∧
  (∀ name, name ≠ "Authorization" → name ≠ "X-CSRF-Token" →
           headers sent !! name = headers request !! name) ∧
  (headers sent !! "Authorization" = headers request !! "Authorization" ∨
   headers sent !! "X-CSRF-Token" = headers request !! "X-CSRF-Token").
Proof.
  intros sent. subst sent. rewrite intercepted_cases.
  destruct (truthy (of_item (st !! "access_token"))); simpl.
  - do 2 (split; [done |]). split.
    + intros name Ha _. by rewrite lookup_insert_ne.
    + right. by rewrite lookup_insert_ne.
  - destruct (truthy (of_item (st !! "csrfToken"))); simpl.
    + do 2 (split; [done |]). split.
      * intros name _ Hc. by rewrite lookup_insert_ne.
      * left. by rewrite lookup_insert_ne.
    + do 2 (split; [done |]). split; [done | by left].
Qed.

Lemma requestInterceptor_one_header_witness :
  headers (intercepted {["access_token" := "T1"; "csrfToken" := "tok123"]}
             (set_header sample_request "Accept" (JStr "application/vnd.api+json")))
    !! "Accept" = Some (JStr "application/vnd.api+json").
Proof.
  destruct (requestInterceptor_one_header
              {["access_token" := "T1"; "csrfToken" := "tok123"]}
              (set_header sample_request "Accept" (JStr "application/vnd.api+json")))
    as (_ & _ & Hother & _).
  rewrite Hother; [reflexivity | discriminate | discriminate].
Defined.

(** ** Bootstrap *)

(** X14. When the CSRF fetch of the module initialization fails, the rejection
    is left unhandled, one GET has been made and the storage is untouched:
    a [csrfToken] kept from an earlier page load stays in use. *)
Theorem moduleInit_fetch_failure
    (env : Env) (net : Network) (st : Storage) (e : Error) (request : Request) :
  isOAuth env = false →
  net 0 (CallGet (tokenClient env)) = Failed e →
  run (moduleInit env) net st =
    {| trace := [(st, CallGet (tokenClient env))]; final := st; settled := Rejected e |} ∧
  intercepted (final (run (moduleInit env) net st)) request = intercepted st request.
Proof.
  intros Hmode Hfail.
  assert (run (moduleInit env) net st =
          {| trace := [(st, CallGet (tokenClient env))]; final := st;
             settled := Rejected e |}) as Hrun.
  { unfold run, moduleInit. rewrite Hmode. cbn [exec length app]. by rewrite Hfail. }
  split; [done |]. by rewrite Hrun.
Qed.

Lemma moduleInit_fetch_failure_witness :
  intercepted (final (run (moduleInit env_csrf) net_down {["csrfToken" := "old"]}))
    sample_request
  = set_header sample_request "X-CSRF-Token" (JStr "old").
Proof.
  destruct (moduleInit_fetch_failure env_csrf net_down {["csrfToken" := "old"]}
              NetworkError sample_request) as [_ Hsame];
    [reflexivity | reflexivity |].
  rewrite Hsame. reflexivity.
Defined.

(** X15. The token fetched at bootstrap is the one the interceptor sends: after
    a successful fetch with a non-empty text body, and with no usable
    [access_token] stored, every request gets [X-CSRF-Token] set to the
    body; with a non-empty [access_token] left in the storage the bearer
    header is sent instead, also in Csrf mode. *)
Theorem moduleInit_then_intercepted
    (env : Env) (net : Network) (st : Storage)
    (response : Response) (body : string) (request : Request) :
  isOAuth env = false →
  net 0 (CallGet (tokenClient env)) = Fulfilled response →
  data response = JStr body → body ≠ "" →
  let st' := final (run (moduleInit env) net st) in
  (unusable st "access_token" →
     intercepted st' request = set_header request "X-CSRF-Token" (JStr body)) ∧
  (∀ t, st !! "access_token" = Some t → t ≠ "" →
     intercepted st' request
     = set_header request "Authorization" (JStr ("Bearer " +:+ t))).
Proof.
  intros Hmode Hok Hbody Hne st'.
  assert (st' = <["csrfToken" := body]> st) as Hst'.
  { subst st'. unfold run, moduleInit. rewrite Hmode. cbn [exec length app].
    rewrite Hok. simpl. unfold setItem. by rewrite Hbody. }
  split.
  - intros Hnone. apply intercepted_csrf; [| | done].
    + unfold unusable. rewrite Hst'. by rewrite lookup_insert_ne.
    + rewrite Hst'. apply lookup_insert_eq.
  - intros t Ht Htne. apply intercepted_access; [| done].
    rewrite Hst'. by rewrite lookup_insert_ne.
Qed.

Lemma moduleInit_then_intercepted_witness :
  intercepted
    (final (run (moduleInit env_csrf)
              (fun _ _ => Fulfilled {| status := 200; data := JStr "tok123" |}) ∅))
    sample_request
  = set_header sample_request "X-CSRF-Token" (JStr "tok123").
Proof.
  destruct (moduleInit_then_intercepted env_csrf
              (fun _ _ => Fulfilled {| status := 200; data := JStr "tok123" |}) ∅
              {| status := 200; data := JStr "tok123" |} "tok123" sample_request)
    as [Hcsrf _];
    [reflexivity | reflexivity | reflexivity | discriminate |].
  apply Hcsrf. left. reflexivity.
Defined.

(** ** Which entries each flow can change *)

Lemma moduleInit_writes_spare env key :
  key ≠ "csrfToken" → writes_spare key (moduleInit env).
Proof.
  intros Hkey. unfold moduleInit. destruct (isOAuth env); [done |].
  cbn [writes_spare]. intros [response | e]; [by split | done].
Qed.

(** X16. Whatever the configuration and whatever the network answers: a login
    changes no entry other than [access_token], [refresh_token] and
    [username]; the refresh logic none other than [access_token] and
    [refresh_token]; the module initialization none other than
    [csrfToken]; the request interceptor none at all. *)
Theorem storage_entries_written
    (env : Env) (username password : string) (failedRequest : FailedRequest)
    (request : Request) (net : Network) (st : Storage) (key : string) :
  (key ∉ ["access_token"; "refresh_token"; "username"] →
     final (run (loginUserCredentials env username password) net st) !! key = st !! key) ∧
  (key ∉ ["access_token"; "refresh_token"] →
     final (run (refreshAuthLogic env failedRequest) net st) !! key = st !! key) ∧
  (key ≠ "csrfToken" →
     final (run (moduleInit env) net st) !! key = st !! key) ∧
  final (run (requestInterceptor request) net st) = st.
Proof.
  split; [| split; [| split]].
  - intros Hkey. apply exec_writes_spare.
    apply loginUserCredentials_writes_spare; intros ->; apply Hkey;
      rewrite !elem_of_cons; tauto.
  - intros Hkey. apply exec_writes_spare.
    apply refreshAuthLogic_writes_spare; intros ->; apply Hkey;
      rewrite !elem_of_cons; tauto.
  - intros Hkey. apply exec_writes_spare. by apply moduleInit_writes_spare.
  - unfold run. by rewrite requestInterceptor_exec.
Qed.

Lemma storage_entries_written_witness :
  final (run (refreshAuthLogic env_oauth sample_failed) net_login_ok
           {["username" := "alice"; "refresh_token" := "R0"]}) !! "username"
  = Some "alice".
Proof.
  destruct (storage_entries_written env_oauth "alice" "secret1" sample_failed
              sample_request net_login_ok
              {["username" := "alice"; "refresh_token" := "R0"]} "username")
    as (_ & Hrefresh & _).
  rewrite Hrefresh; [reflexivity |].
  rewrite !elem_of_cons, elem_of_nil.
  intros [H | [H | []]]; discriminate H.
Defined.

(** ** Requests through clients without the refresh interceptor *)

(** X17. A client created with a truthy [skipAuthLogic], or created outside
    OAuth mode, has no refresh interceptor: a failed request, a 401
    included, is surfaced as it is, after that one call, with no token
    POST and the storage untouched.  Through a [skipAuthLogic] client the
    request also leaves exactly as the caller built it. *)
Theorem createClient_failure_surfaces
    (env : Env) (endpoint skipAuthLogic : jsval) (net : Network) (st : Storage)
    (request : Request) (e : Error) :
  truthy skipAuthLogic = true ∨ isOAuth env = false →
  let c := createClient env endpoint skipAuthLogic in
  let sent := if truthy skipAuthLogic then request else intercepted st request in
  net 0 (CallRequest c sent false) = Failed e →
  run (send env c request) net st =
    {| trace := [(st, CallRequest c sent false)]; final := st; settled := Rejected e |} ∧
  posts (trace (run (send env c request) net st)) = [].
Proof.
  intros Hbare c sent Hfail.
  assert (auth_refresh c = None) as Hnone.
  { subst c. unfold createClient.
    destruct (truthy skipAuthLogic); [done |]. simpl.
    destruct Hbare as [Hskip | ->]; [discriminate Hskip | done]. }
  assert (fold_left (fun r _ => intercepted st r) (request_hooks c) request = sent)
    as Hsent.
  { subst c sent. unfold createClient. by destruct (truthy skipAuthLogic). }
  assert (run (send env c request) net st =
          {| trace := [(st, CallRequest c sent false)]; final := st;
             settled := Rejected e |}) as Hrun.
  { unfold run, send. rewrite exec_bind, apply_request_hooks_exec, Hsent.
    cbn [settled final trace exec length app]. by rewrite Hfail, Hnone. }
  split; [done |]. by rewrite Hrun.
Qed.

Lemma createClient_failure_surfaces_witness :
  run (send env_csrf (createClient env_csrf JUndefined JUndefined) sample_request)
    (fun _ _ => Failed (HttpError 401 JNull)) {["csrfToken" := "tok123"]}
  = {| trace := [({["csrfToken" := "tok123"]},
                  CallRequest (createClient env_csrf JUndefined JUndefined)
                    (set_header sample_request "X-CSRF-Token" (JStr "tok123")) false)];
       final := {["csrfToken" := "tok123"]};
       settled := Rejected (HttpError 401 JNull) |}.
Proof.
  destruct (createClient_failure_surfaces env_csrf JUndefined JUndefined
              (fun _ _ => Failed (HttpError 401 JNull)) {["csrfToken" := "tok123"]}
              sample_request (HttpError 401 JNull)) as [Hrun _];
    [right; reflexivity | reflexivity |].
  rewrite Hrun. reflexivity.
Defined.

(** ** The token client *)

(** X18. The module's token client never has an interceptor.  In OAuth mode it
    is bound to [VUE_APP_OAUTH_ENDPOINT] when that is non-empty and to
    [/oauth/token] when it is missing or empty; outside OAuth mode
    [oauthEndpoint] stays [null] and the client is bound to
    [VUE_APP_CSRF_TOKEN_ENDPOINT], or to [/session/token] when that is
    missing or empty. *)
Theorem tokenClient_endpoint (env : Env) :
  request_hooks (tokenClient env) = [] ∧
  auth_refresh (tokenClient env) = None ∧
  (isOAuth env = true →
     baseURL (tokenClient env) = oauthEndpoint env ∧
     (∀ s, VUE_APP_OAUTH_ENDPOINT env = Some s → s ≠ "" →
           baseURL (tokenClient env) = JStr s) ∧
     (VUE_APP_OAUTH_ENDPOINT env = None ∨ VUE_APP_OAUTH_ENDPOINT env = Some "" →
      baseURL (tokenClient env) = JStr "/oauth/token")) ∧
  (isOAuth env = false →
     oauthEndpoint env = JNull ∧
     (∀ s, VUE_APP_CSRF_TOKEN_ENDPOINT env = Some s → s ≠ "" →
           baseURL (tokenClient env) = JStr s) ∧
     (VUE_APP_CSRF_TOKEN_ENDPOINT env = None ∨ VUE_APP_CSRF_TOKEN_ENDPOINT env = Some "" →
      baseURL (tokenClient env) = JStr "/session/token")).
Proof.
  destruct (tokenClient_bare env) as [Hhooks Hrefresh].
  do 2 (split; [done |]).
  unfold tokenClient, oauthEndpoint, csrfEndpoint, js_or.
  destruct (isOAuth env); simpl; (split; [| discriminate || idtac]).
  - intros _. split; [done |]. split.
    + intros s -> Hne. simpl. by destruct (decide (s = "")).
    + by intros [-> | ->].
  - discriminate.
  - intros _. split; [done |]. split.
    + intros s -> Hne. simpl. by destruct (decide (s = "")).
    + by intros [-> | ->].
Qed.

Lemma tokenClient_endpoint_witness :
  baseURL (tokenClient env_oauth) = JStr "/oauth/token" ∧
  baseURL (tokenClient env_csrf) = JStr "/session/token".
Proof.
  split.
  - destruct (tokenClient_endpoint env_oauth) as (_ & _ & Hoauth & _).
    destruct (Hoauth eq_refl) as (_ & _ & Hdefault). apply Hdefault. left. reflexivity.
  - destruct (tokenClient_endpoint env_csrf) as (_ & _ & _ & Hcsrf).
    destruct (Hcsrf eq_refl) as (_ & _ & Hdefault). apply Hdefault. left. reflexivity.
Defined.
